(** * goproxy-cache: the blob cache of examples/goproxy-cache/main.go

    A shallow embedding of the cache core of [main.go]: the index
    [cache : map[string]int], the tee reader that streams an upstream body
    to the client and to a file of the cache directory, the request handler
    [CacheReqHandler], the response handler [CacheRespHandler] and the
    startup scan [cacheInit].

    Go's globals ([cachedir], [cache]) and the cache directory on disk are
    the fields of one record, [World], threaded through every function.
    Calls of [ctx.Logf], [ctx.Warnf] and [fmt.Printf] only print and are left
    out.  The mutex [m] serialises the accesses to [cache]; a handler is one
    atomic step of the model, except for the sleep of [CacheReqHandler],
    during which the other goroutines run. *)

From Stdlib Require Import ZArith Lia.
From Stdlib.Strings Require Import Byte Ascii String.
From stdpp Require Import base option list strings gmap fin_maps relations sorting.

Local Open Scope Z_scope.

(** ** Constants for cache entry status (main.go, lines 20-25) *)

Definition EMPTY : Z := 0.
Definition AVAILABLE : Z := 1.
Definition IN_PROGRESS : Z := 2.

(** ** Errors, files and the cache directory *)

(** Go's [error] values the code can see: [io.EOF] and any other error. *)
Inductive error : Type :=
  | EOF
  | ErrOther (msg : string).

(** An [*os.File]: the path it was opened with, the offset of the next read
    or write, and whether [Close] was called on it. *)
Record File : Type := mkFile {
  f_path : string;
  f_off : nat;
  f_closed : bool
}.

(** What is on disk at the path [cachedir]: nothing, something that is not
    a directory, or a directory with its entries.  The cache directory is
    flat: the program only creates regular files in it, named by key. *)
Inductive Store : Type :=
  | Absent
  | NotDir
  | Dir (entries : gmap string (list byte)).

(** The globals of main.go with the disk: [cachedir], [cache] and the state
    of the directory [cachedir] names. *)
Record World : Type := mkWorld {
  cachedir : string;
  cache : gmap string Z;
  store : Store
}.

(** The faults of the operating system, chosen by the environment: which
    calls fail though the path exists, and how many bytes a write manages
    before it fails ([None]: the write is complete). *)
Record Env : Type := mkEnv {
  open_fault : string -> bool;
  stat_fault : string -> bool;
  create_fault : string -> bool;
  mkdir_fault : string -> bool;
  readdir_fault : string -> bool;
  write_fault : File -> list byte -> option nat
}.

(** No fault at all. *)
Definition calm : Env :=
  {| open_fault := fun _ => false;
     stat_fault := fun _ => false;
     create_fault := fun _ => false;
     mkdir_fault := fun _ => false;
     readdir_fault := fun _ => false;
     write_fault := fun _ _ => None |}.

(** [cache[k]]: reading a Go map gives the zero value for an absent key. *)
Definition index (w : World) (k : string) : Z := default 0 (cache w !! k).

(** [cache[k] = v] *)
Definition set_index (w : World) (k : string) (v : Z) : World :=
  {| cachedir := cachedir w; cache := <[k := v]> (cache w); store := store w |}.

Definition set_store (w : World) (s : Store) : World :=
  {| cachedir := cachedir w; cache := cache w; store := s |}.

(** [strings.HasPrefix], returning what follows the prefix. *)
Fixpoint strip_prefix (pre s : string) : option string :=
  match pre with
  | EmptyString => Some s
  | String a pre' =>
      match s with
      | EmptyString => None
      | String b s' => if decide (a = b) then strip_prefix pre' s' else None
      end
  end.

(** [strings.HasSuffix(s, "/")] *)
Fixpoint HasSuffix_slash (s : string) : bool :=
  match s with
  | EmptyString => false
  | String a EmptyString => bool_decide (a = "/"%char)
  | String _ s' => HasSuffix_slash s'
  end.

(** The entry of the cache directory a path names: [Some ""] is the
    directory itself, [None] a path outside of it. *)
Definition entry_of (w : World) (path : string) : option string :=
  strip_prefix (cachedir w) path.

(** The contents of the regular file at [path], if there is one. *)
Definition file_at (w : World) (path : string) : option (list byte) :=
  match store w, entry_of w path with
  | Dir es, Some name => if decide (name = "") then None else es !! name
  | _, _ => None
  end.

(** [os.FileInfo], as far as the code reads it. *)
Record FileInfo : Type := mkFileInfo {
  IsDir : bool;
  Size : Z
}.

(** [os.Stat(path)]; [None] is an error. *)
Definition os_Stat (e : Env) (w : World) (path : string) : option FileInfo :=
  if stat_fault e path then None
  else match store w, entry_of w path with
       | Dir es, Some name =>
           if decide (name = "") then Some {| IsDir := true; Size := 4096 |}
           else (fun c => {| IsDir := false; Size := Z.of_nat (length c) |}) <$> es !! name
       | _, _ => None
       end.

(** [os.Open(path)]: a handle for reading, at offset 0. *)
Definition os_Open (e : Env) (w : World) (path : string) : option File :=
  if open_fault e path then None
  else match file_at w path with
       | Some _ => Some {| f_path := path; f_off := 0; f_closed := false |}
       | None => None
       end.

(** [os.Create(path)]: creates the file or truncates it; the handle is at
    offset 0.  A failure leaves the disk as it was. *)
Definition os_Create (e : Env) (w : World) (path : string) : World * option File :=
  if create_fault e path then (w, None)
  else match store w, entry_of w path with
       | Dir es, Some name =>
           if decide (name = "") then (w, None)
           else (set_store w (Dir (<[name := []]> es)),
                 Some {| f_path := path; f_off := 0; f_closed := false |})
       | _, _ => (w, None)
       end.

(** [os.Mkdir(cachedir, 0755)]: fails when something is there already. *)
Definition os_Mkdir (e : Env) (w : World) : option World :=
  match store w with
  | Absent => if mkdir_fault e (cachedir w) then None else Some (set_store w (Dir ∅))
  | _ => None
  end.

(** The order of file names: bytewise, as Go compares strings. *)
Definition name_le (a b : string) : Prop := String.leb a b = true.

#[global] Instance name_le_dec (a b : string) : Decision (name_le a b).
Proof. unfold name_le. apply _. Defined.

(** [ioutil.ReadDir(cachedir)]: the names of the entries, sorted by name. *)
Definition ioutil_ReadDir (e : Env) (w : World) : option (list string) :=
  if readdir_fault e (cachedir w) then None
  else match store w with
       | Dir es => Some (merge_sort name_le (fst <$> map_to_list es))
       | _ => None
       end.

(** The bytes of a file after [data] is written at offset [off]; a write
    past the end leaves a hole of zero bytes. *)
Definition write_at (off : nat) (data content : list byte) : list byte :=
  take off (content ++ replicate (off - length content)%nat Byte.x00)
  ++ data ++ drop (off + length data)%nat content.

(** How many bytes of [data] a write through [f] puts on disk. *)
Definition written (e : Env) (f : File) (data : list byte) : nat :=
  match write_fault e f data with
  | None => length data
  | Some k => (k `min` length data)%nat
  end.

(** [f.Write(data)]: the number of bytes written and whether an error is
    reported.  The bytes go at the offset of the handle.  *)
Definition File_Write (e : Env) (w : World) (f : File) (data : list byte)
  : World * File * Z * bool :=
  if f_closed f then (w, f, 0, true)
  else match store w, entry_of w (f_path f) with
       | Dir es, Some name =>
           match es !! name with
           | Some content =>
               let n := written e f data in
               (set_store w (Dir (<[name := write_at (f_off f) (take n data) content]> es)),
                {| f_path := f_path f; f_off := (f_off f + n)%nat; f_closed := false |},
                Z.of_nat n,
                bool_decide (is_Some (write_fault e f data)))
           | None => (w, f, 0, true)
           end
       | _, _ => (w, f, 0, true)
       end.

(** [f.Close()] *)
Definition File_Close (f : File) : File :=
  {| f_path := f_path f; f_off := f_off f; f_closed := true |}.

(** [f.Read(p)]: up to [len(p)] bytes from the offset of the handle;
    [(0, io.EOF)] at the end of the file. *)
Definition File_Read (w : World) (f : File) (p : list byte)
  : File * list byte * Z * option error :=
  if f_closed f then (f, p, 0, Some (ErrOther "file already closed"))
  else match file_at w (f_path f) with
       | None => (f, p, 0, Some (ErrOther "bad file"))
       | Some content =>
           let rest := drop (f_off f) content in
           let n := (length p `min` length rest)%nat in
           if decide (length p = 0%nat) then (f, p, 0, None)
           else if decide (n = 0%nat) then (f, p, 0, Some EOF)
           else ({| f_path := f_path f; f_off := (f_off f + n)%nat; f_closed := false |},
                 take n rest ++ drop n p, Z.of_nat n, None)
       end.

(** Go's [int] and [int64] are 64 bits wide: sums wrap around. *)
Definition wrap64 (z : Z) : Z := (z + 2 ^ 63) mod 2 ^ 64 - 2 ^ 63.

(** ** The interface [io.ReadCloser] *)

(** A body the transport hands over.  [rc_Read b p] is [b.Read(p)]: the
    body afterwards, the buffer afterwards, the count [n] and the error.
    [rc_Read_bounds] is the contract of [io.Reader]: [0 <= n <= len(p)],
    and the buffer keeps its length. *)
Class ReadCloser (B : Type) : Type := {
  rc_Read : B -> list byte -> B * list byte * Z * option error;
  rc_Close : B -> B * option error;
  rc_Read_bounds : forall b p,
    (length (rc_Read b p).1.1.2 = length p) /\
    (0 <= (rc_Read b p).1.2 <= Z.of_nat (length p))
}.

(** ** HTTP messages *)

(** [*http.Request], as far as the handlers read it. *)
Record Request : Type := mkRequest {
  URL_Path : string;
  req_TransferEncoding : list string
}.

(** [type cacheTeeReader struct] (main.go, lines 34-42), over the type [X]
    of the body it wraps; the field [ctx] only serves logging. *)
Record cacheTeeReader (X : Type) : Type := mkTee {
  shaname : string;
  fname : string;
  f : File;
  body : X;
  nbread : Z;
  nbwritten : Z
}.
Arguments mkTee {X}.
Arguments shaname {X}.
Arguments fname {X}.
Arguments f {X}.
Arguments body {X}.
Arguments nbread {X}.
Arguments nbwritten {X}.

Scheme All for cacheTeeReader.

Section Cache.

Context {B : Type} `{!ReadCloser B}.

(** The compiled pattern [re] of main.go, line 28, as the function
    [re.FindStringSubmatch] of package regexp: the whole match followed by
    the submatches, or [nil]. *)
Variable re : string -> option (list string).

(** The values of [resp.Body]: a body of the transport, the file of a cache
    hit under [ioutil.NopCloser], or a tee reader around another body. *)
Inductive Body : Type :=
  | UpstreamBody (b : B)
  | NopCloser (file : File)
  | TeeBody (tee : cacheTeeReader Body).

(** [*http.Response], as far as the handlers read and write it.  A response
    the handlers see has its request and a body: the transport sets both,
    and so does [CacheReqHandler] on the response it builds. *)
Record Response : Type := mkResponse {
  StatusCode : Z;
  Header : gmap string (list string);
  ContentLength : Z;
  resp_TransferEncoding : list string;
  resp_Body : Body;
  resp_Request : Request
}.

(** [h.Add(key, value)] for a key in canonical form, as ["Content-Type"] is. *)
Definition Header_Add (key value : string) (h : gmap string (list string))
  : gmap string (list string) :=
  <[key := default [] (h !! key) ++ [value]]> h.

(** ** The tee reader (main.go, lines 44-91) *)

(** [newCacheTeeReader(shaname, body, ctx)]; [None] is the error
    "Could not open file". *)
Definition newCacheTeeReader {X : Type} (e : Env) (w : World) (sha : string) (bd : X)
  : World * option (cacheTeeReader X) :=
  let tee := {| shaname := sha;
                fname := cachedir w +:+ sha;
                f := {| f_path := ""; f_off := 0; f_closed := true |};
                body := bd;
                nbread := 0;
                nbwritten := 0 |} in
  match os_Create e w (fname tee) with
  | (w', None) => (w', None)
  | (w', Some file) =>
      (w', Some {| shaname := shaname tee; fname := fname tee; f := file;
                   body := body tee; nbread := nbread tee; nbwritten := nbwritten tee |})
  end.

(** [tee.Read(p)], given the [Read] of the wrapped body. *)
Definition cacheTeeReader_Read {X : Type}
    (body_Read : World -> X -> list byte -> World * X * list byte * Z * option error)
    (e : Env) (w : World) (tee : cacheTeeReader X) (p : list byte)
  : World * cacheTeeReader X * list byte * Z * option error :=
  let '(w1, body', p', nread, err) := body_Read w (body tee) p in
  let nbread' := wrap64 (nbread tee + nread) in
  if bool_decide (0 < nread) then
    let '(w2, f', nbytes, err2) := File_Write e w1 (f tee) (take (Z.to_nat nread) p') in
    (w2,
     {| shaname := shaname tee; fname := fname tee; f := f'; body := body';
        nbread := nbread'; nbwritten := wrap64 (nbwritten tee + nbytes) |},
     p', nread, err)
  else
    (w1,
     {| shaname := shaname tee; fname := fname tee; f := f tee; body := body';
        nbread := nbread'; nbwritten := nbwritten tee |},
     p', nread, err).

(** [tee.Close()]: closes the file and marks the key; the wrapped body is
    not closed.  The error returned is [nil]. *)
Definition cacheTeeReader_Close {X : Type} (w : World) (tee : cacheTeeReader X)
  : World * cacheTeeReader X * option error :=
  let f' := File_Close (f tee) in
  (set_index w (shaname tee) AVAILABLE,
   {| shaname := shaname tee; fname := fname tee; f := f'; body := body tee;
      nbread := nbread tee; nbwritten := nbwritten tee |},
   None).

(** [b.Read(p)] for every kind of body. *)
Fixpoint Body_Read (e : Env) (w : World) (b : Body) (p : list byte)
  : World * Body * list byte * Z * option error :=
  match b with
  | UpstreamBody u =>
      let '(u', p', n, err) := rc_Read u p in (w, UpstreamBody u', p', n, err)
  | NopCloser file =>
      let '(file', p', n, err) := File_Read w file p in (w, NopCloser file', p', n, err)
  | TeeBody tee =>
      let '(w', tee', p', n, err) :=
        cacheTeeReader_Read (fun w0 b0 p0 => Body_Read e w0 b0 p0) e w tee p in
      (w', TeeBody tee', p', n, err)
  end.

(** [b.Close()] for every kind of body. *)
Definition Body_Close (w : World) (b : Body) : World * Body * option error :=
  match b with
  | UpstreamBody u => let '(u', err) := rc_Close u in (w, UpstreamBody u', err)
  | NopCloser file => (w, NopCloser file, None)
  | TeeBody tee =>
      let '(w', tee', err) := cacheTeeReader_Close w tee in (w', TeeBody tee', err)
  end.

(** ** The handlers (main.go, lines 122-225) *)

(** [shouldBeCached(urlpath, ctx)]: [""] or the name of the layer. *)
Definition shouldBeCached (urlpath : string) : string :=
  match re urlpath with
  | Some res => if bool_decide (1 < length res)%nat then default "" (res !! 1%nat) else ""
  | None => ""
  end.

(** The loop of lines 153-159.  [sleeps] lists what the other goroutines do
    to the world during each [time.Sleep], while the mutex is released.
    The result is the value of [in_cache] the loop ends with and the world
    then; [None] when the key is still [IN_PROGRESS] after all of [sleeps],
    the handler polling on. *)
Fixpoint wait_for_download (sleeps : list (World -> World)) (w : World) (k : string)
  : option (Z * World) :=
  let in_cache := index w k in
  if bool_decide (in_cache = IN_PROGRESS) then
    match sleeps with
    | [] => None
    | others :: sleeps' => wait_for_download sleeps' (others w) k
    end
  else Some (in_cache, w).

(** [CacheReqHandler(req, ctx)]: the world afterwards, the request and the
    response returned ([None] is [nil]: the request goes upstream). *)
Definition CacheReqHandler (e : Env) (sleeps : list (World -> World)) (w : World)
    (req : Request) : option (World * Request * option Response) :=
  let k := shouldBeCached (URL_Path req) in
  if bool_decide (k ≠ "") then
    match wait_for_download sleeps w k with
    | None => None
    | Some (in_cache, w1) =>
        if bool_decide (in_cache = AVAILABLE) then
          match os_Open e w1 (cachedir w1 +:+ k) with
          | None => Some (w1, req, None)
          | Some file =>
              match os_Stat e w1 (cachedir w1 +:+ k) with
              | None => Some (w1, req, None)
              | Some fi =>
                  let resp :=
                    {| StatusCode := 200;
                       Header := Header_Add "Content-Type" "application/octet-stream" ∅;
                       ContentLength := Size fi;
                       resp_TransferEncoding := req_TransferEncoding req;
                       resp_Body := NopCloser file;
                       resp_Request := req |} in
                  Some (w1, req, Some resp)
              end
          end
        else Some (set_index w1 k IN_PROGRESS, req, None)
    end
  else Some (w, req, None).

(** [CacheRespHandler(resp, ctx)]: the world afterwards and the response
    returned. *)
Definition CacheRespHandler (e : Env) (w : World) (resp : Response)
  : World * Response :=
  if bool_decide (StatusCode resp ≠ 200) then (w, resp)
  else
    let k := shouldBeCached (URL_Path (resp_Request resp)) in
    if bool_decide (k ≠ "") then
      let in_cache := index w k in
      if bool_decide (in_cache = AVAILABLE) then (w, resp)
      else
        match newCacheTeeReader e w k (resp_Body resp) with
        | (w', Some tee) =>
            (w', {| StatusCode := StatusCode resp; Header := Header resp;
                    ContentLength := ContentLength resp;
                    resp_TransferEncoding := resp_TransferEncoding resp;
                    resp_Body := TeeBody tee;
                    resp_Request := resp_Request resp |})
        | (w', None) => (w', resp)
        end
    else (w, resp).

(** ** The startup scan (main.go, lines 93-120) *)

(** The loop of lines 116-119 over the names [ReadDir] returned. *)
Definition load_cache (files : list string) (c : gmap string Z) : gmap string Z :=
  foldl (fun c name => <[name := AVAILABLE]> c) c files.

(** The name [cacheInit] gives [cachedir]. *)
Definition with_slash (d : string) : string :=
  if HasSuffix_slash d then d else d +:+ "/".

(** [cacheInit()]; [None] is [log.Fatal]: the process exits.  The directory
    is the same under the name with the slash appended. *)
Definition cacheInit (e : Env) (w : World) : option World :=
  let w :=
    if negb (HasSuffix_slash (cachedir w))
    then {| cachedir := cachedir w +:+ "/"; cache := cache w; store := store w |}
    else w in
  let made :=
    match os_Stat e w (cachedir w) with
    | Some stat =>
        if negb (IsDir stat) then os_Mkdir e w else Some w
    | None => os_Mkdir e w
    end in
  match made with
  | None => None
  | Some w =>
      let w := {| cachedir := cachedir w; cache := ∅; store := store w |} in
      match ioutil_ReadDir e w with
      | None => None
      | Some files =>
          Some {| cachedir := cachedir w; cache := load_cache files (cache w);
                  store := store w |}
      end
  end.

(** The process as [main] finds it when it calls [cacheInit]: [cachedir]
    holds the value of the flag [-d], and [cache] is the [nil] map, which
    reads [EMPTY] at every key. *)
Definition process_start (d : string) (s : Store) : World :=
  {| cachedir := d; cache := ∅; store := s |}.

(** ** Consuming a body *)

(** Successive reads of a body into the buffers [ps], as the HTTP layer
    does while it delivers the response. *)
Fixpoint Body_Reads (e : Env) (w : World) (b : Body) (ps : list (list byte))
  : World * Body :=
  match ps with
  | [] => (w, b)
  | p :: ps' =>
      let '(w', b', _, _, _) := Body_Read e w b p in Body_Reads e w' b' ps'
  end.

(** [io.ReadAll(b)] with a buffer of [size] bytes: the bytes read up to
    [io.EOF].  [None] when an error other than [io.EOF] comes first, or when
    [fuel] reads did not reach the end. *)
Fixpoint Body_ReadAll (fuel : nat) (e : Env) (w : World) (b : Body) (size : nat)
  : option (list byte) :=
  match fuel with
  | O => None
  | S fuel' =>
      let '(w', b', p', n, err) := Body_Read e w b (replicate size Byte.x00) in
      match err with
      | Some EOF => Some (take (Z.to_nat n) p')
      | Some _ => None
      | None => (fun tl => take (Z.to_nat n) p' ++ tl) <$> Body_ReadAll fuel' e w' b' size
      end
  end.

(** ** The goroutines of the proxy *)

(** What another goroutine does in one go while a request handler sleeps:
    it runs [CacheReqHandler] up to its own sleep or its return, runs
    [CacheRespHandler], or reads or closes a response body. *)
Inductive Action : Type :=
  | ActRequest (e : Env) (req : Request)
  | ActResponse (e : Env) (resp : Response)
  | ActRead (e : Env) (b : Body) (p : list byte)
  | ActClose (b : Body).

Definition run_action (a : Action) (w : World) : World :=
  match a with
  | ActRequest e req =>
      match CacheReqHandler e [] w req with
      | Some (w', _, _) => w'
      | None => w
      end
  | ActResponse e resp => (CacheRespHandler e w resp).1
  | ActRead e b p => (Body_Read e w b p).1.1.1.1
  | ActClose b => (Body_Close w b).1.1
  end.

Definition run_actions (acts : list Action) (w : World) : World :=
  foldl (fun w a => run_action a w) w acts.

(** One operation of the cache on the world: the startup scan, which [main]
    runs once, from [process_start]; then request handlers, with what the
    other goroutines do during their sleeps, response handlers, and reads
    and closes of response bodies. *)
Inductive transition : World -> World -> Prop :=
  | startup_scan e d s w' :
      cacheInit e (process_start d s) = Some w' ->
      transition (process_start d s) w'
  | request_gate e sleeps w req w' req' resp :
      CacheReqHandler e (run_actions <$> sleeps) w req = Some (w', req', resp) ->
      transition w w'
  | response_gate e w resp :
      transition w (CacheRespHandler e w resp).1
  | writer_read e w b p :
      transition w (Body_Read e w b p).1.1.1.1
  | writer_close w b :
      transition w (Body_Close w b).1.1.

(** The states in the order [EMPTY], [IN_PROGRESS], [AVAILABLE]; the
    handlers treat every value that is neither [IN_PROGRESS] nor
    [AVAILABLE] as [EMPTY]. *)
Definition rank (st : Z) : nat :=
  if bool_decide (st = AVAILABLE) then 2%nat
  else if bool_decide (st = IN_PROGRESS) then 1%nat
  else 0%nat.

(** A state [a] has moved forward to [b]. *)
Definition forward (a b : Z) : Prop :=
  (rank a <= rank b)%nat /\ (a ≠ EMPTY -> b ≠ EMPTY) /\ (a = AVAILABLE -> b = AVAILABLE).

(** Every key of [w'] is at the state it has in [w] or further. *)
Definition index_forward (w w' : World) : Prop :=
  forall k : string, forward (index w k) (index w' k).

(** The tee reader is the writer of its file, its handle at the end of it:
    the condition under which its writes append. *)
Definition at_end {X : Type} (w : World) (tee : cacheTeeReader X) (content : list byte)
  : Prop :=
  f_closed (f tee) = false /\
  file_at w (f_path (f tee)) = Some content /\
  f_off (f tee) = length content.

End Cache.

Arguments Body : clear implicits.
Arguments Response : clear implicits.
Arguments Action : clear implicits.

(** ** A body and a pattern to run the model on *)

(** A body that delivers the bytes it holds, as many as the buffer takes,
    and then [io.EOF]. *)
Definition bytes_Read (b p : list byte) : list byte * list byte * Z * option error :=
  let n := (length p `min` length b)%nat in
  if decide (n = 0%nat) then
    (b, p, 0, if decide (length p = 0%nat) then None else Some EOF)
  else (drop n b, take n b ++ drop n p, Z.of_nat n, None).

#[global, refine] Instance bytes_ReadCloser : ReadCloser (list byte) :=
  {| rc_Read := bytes_Read; rc_Close := fun b => (b, None) |}.
Proof.
  intros b p. unfold bytes_Read. case_decide; simpl; [lia|].
  rewrite length_app, length_take, length_drop. lia.
Defined.

(** The pattern of main.go, line 28, on paths of ASCII characters:
    [/registry-v2/docker/registry/v2/blobs/sha256/../(?P<shaname>[^/]+)/]. *)
Definition re_prefix : string := "/registry-v2/docker/registry/v2/blobs/sha256/".

(** The longest run of characters other than [/] at the head of [s], and
    the rest. *)
Fixpoint span_name (s : string) : string * string :=
  match s with
  | EmptyString => (EmptyString, EmptyString)
  | String c s' =>
      if decide (c = "/"%char) then (EmptyString, s)
      else let '(name, rest) := span_name s' in (String c name, rest)
  end.

(** The match of the pattern at the head of [s]. *)
Definition re_match_here (s : string) : option (list string) :=
  match strip_prefix re_prefix s with
  | Some (String c1 (String c2 (String c3 tl))) =>
      if decide (c1 ≠ "010"%char /\ c2 ≠ "010"%char /\ c3 = "/"%char) then
        match span_name tl with
        | (name, String _ _) =>
            if decide (name = "") then None
            else Some [re_prefix +:+ String c1 (String c2 (String c3 name)) +:+ "/"; name]
        | _ => None
        end
      else None
  | _ => None
  end.

(** The leftmost match. *)
Fixpoint re_ascii (s : string) : option (list string) :=
  match re_match_here s with
  | Some res => Some res
  | None =>
      match s with
      | EmptyString => None
      | String _ s' => re_ascii s'
      end
  end.

(** ** The functions of main.go beside the handlers *)

(** Why [os.Stat] fails: the path names nothing ([os.IsNotExist] holds of
    the error), or anything else. *)
Inductive StatError : Type :=
  | ErrNotExist
  | ErrStatOther.

(** The error of [os.Stat(path)], [None] when it succeeds: [os_Stat] with
    the kind of its error.  A fault of the environment and a path through
    something that is not a directory are errors other than "not exist". *)
Definition os_Stat_err (e : Env) (w : World) (path : string) : option StatError :=
  if stat_fault e path then Some ErrStatOther
  else match store w, entry_of w path with
       | Dir es, Some name =>
           if decide (name = "") then None
           else match es !! name with
                | Some _ => None
                | None => Some ErrNotExist
                end
       | Dir _, None => Some ErrNotExist
       | Absent, _ => Some ErrNotExist
       | NotDir, _ => Some ErrStatOther
       end.

(** [os.IsNotExist(err)] *)
Definition os_IsNotExist (err : option StatError) : bool :=
  match err with
  | Some ErrNotExist => true
  | _ => false
  end.

(** [cacheExistsFor(blob, ctx)] (main.go, lines 134-142) *)
Definition cacheExistsFor (e : Env) (w : World) (blob : string) : bool :=
  let fname := cachedir w +:+ blob in
  if os_IsNotExist (os_Stat_err e w fname) then false else true.

(** The bytes the consumer of a body receives over successive reads into
    the buffers [ps]: of each read, the first [n] bytes of the buffer. *)
Fixpoint Body_Reads_data {B : Type} `{!ReadCloser B} (e : Env) (w : World) (b : Body B)
    (ps : list (list byte)) : list byte :=
  match ps with
  | [] => []
  | p :: ps' =>
      let '(w', b', p', n, _) := Body_Read e w b p in
      take (Z.to_nat n) p' ++ Body_Reads_data e w' b' ps'
  end.

(** The cache directory of [w] and each of its files are still there in
    [w'], whatever the files hold. *)
Definition files_kept (w w' : World) : Prop :=
  forall es : gmap string (list byte),
    store w = Dir es ->
    exists es' : gmap string (list byte),
      store w' = Dir es' /\ forall name : string, is_Some (es !! name) -> is_Some (es' !! name).

(** A character of the ASCII range, which UTF-8 encodes in one byte. *)
Definition is_ascii (c : ascii) : Prop := (nat_of_ascii c < 128)%nat.

(** The character [/] occurs in [s]. *)
Definition has_slash (s : string) : Prop := "/"%char ∈ list_ascii_of_string s.

(** ** Sample worlds *)

(** A request for a blob, the key the pattern finds in it, and worlds where
    the key is unknown, being fetched, and cached. *)
Definition blob_path : string :=
  "/registry-v2/docker/registry/v2/blobs/sha256/ab/abc123/".

Definition blob_req : Request :=
  {| URL_Path := blob_path; req_TransferEncoding := [] |}.

Definition w_unknown : World :=
  {| cachedir := "/tmp/proxy/"; cache := ∅; store := Dir ∅ |}.

Definition w_fetching : World :=
  {| cachedir := "/tmp/proxy/"; cache := {[ "abc123" := IN_PROGRESS ]};
     store := Dir {[ "abc123" := [Byte.x68] ]} |}.

Definition w_cached : World :=
  {| cachedir := "/tmp/proxy/"; cache := {[ "abc123" := AVAILABLE ]};
     store := Dir {[ "abc123" := [Byte.x68; Byte.x69] ]} |}.

(** The [Read] of an upstream body of bytes, in the shape [tee.Read] takes. *)
Definition upstream_Read (w : World) (b p : list byte)
  : World * list byte * list byte * Z * option error :=
  let '(b', p', n, err) := bytes_Read b p in (w, b', p', n, err).

(** The tee reader of the fetch of [w_fetching], one byte in. *)
Definition blob_tee {X : Type} (bd : X) : cacheTeeReader X :=
  {| shaname := "abc123"; fname := "/tmp/proxy/abc123";
     f := {| f_path := "/tmp/proxy/abc123"; f_off := 1; f_closed := false |};
     body := bd; nbread := 1; nbwritten := 1 |}.

(** A disk that takes one byte of each write, and one that takes none. *)
Definition short_writes : Env :=
  {| open_fault := fun _ => false; stat_fault := fun _ => false;
     create_fault := fun _ => false; mkdir_fault := fun _ => false;
     readdir_fault := fun _ => false; write_fault := fun _ _ => Some 1%nat |}.

Definition no_open : Env :=
  {| open_fault := fun _ => true; stat_fault := fun _ => false;
     create_fault := fun _ => false; mkdir_fault := fun _ => false;
     readdir_fault := fun _ => false; write_fault := fun _ _ => None |}.

Definition no_create : Env :=
  {| open_fault := fun _ => false; stat_fault := fun _ => false;
     create_fault := fun _ => true; mkdir_fault := fun _ => false;
     readdir_fault := fun _ => false; write_fault := fun _ _ => None |}.

(** An upstream response to [blob_req] with the given status. *)
Definition blob_resp (status : Z) : Response (list byte) :=
  {| StatusCode := status; Header := ∅; ContentLength := 2;
     resp_TransferEncoding := [];
     resp_Body := UpstreamBody [Byte.x68; Byte.x69];
     resp_Request := blob_req |}.

(** * Properties *)

(** ** Paths, the index and the disk *)

Lemma strip_prefix_app (d k : string) : strip_prefix d (d +:+ k) = Some k.
Proof.
  induction d as [|a d IH]; simpl; [done|].
  by rewrite decide_True.
Qed.

Lemma entry_of_key (w : World) (k : string) : entry_of w (cachedir w +:+ k) = Some k.
Proof. apply strip_prefix_app. Qed.

Lemma index_absent (w : World) (k : string) : cache w !! k = None -> index w k = EMPTY.
Proof. unfold index. by intros ->. Qed.

Lemma index_set_index_eq (w : World) (k : string) (v : Z) : index (set_index w k v) k = v.
Proof. unfold index, set_index; simpl. by rewrite lookup_insert_eq. Qed.

Lemma index_set_index_ne (w : World) (k k' : string) (v : Z) :
  k ≠ k' -> index (set_index w k v) k' = index w k'.
Proof. intros Hne. unfold index, set_index; simpl. by rewrite lookup_insert_ne. Qed.

Lemma index_set_store (w : World) (s : Store) (k : string) :
  index (set_store w s) k = index w k.
Proof. done. Qed.

Lemma file_at_key (w : World) (k : string) (es : gmap string (list byte)) :
  store w = Dir es -> k ≠ "" -> file_at w (cachedir w +:+ k) = es !! k.
Proof.
  intros Hs Hk. unfold file_at. rewrite Hs, entry_of_key. by rewrite decide_False.
Qed.

Lemma write_at_end (data content : list byte) :
  write_at (length content) data content = content ++ data.
Proof.
  unfold write_at. rewrite Nat.sub_diag; simpl. rewrite app_nil_r.
  rewrite firstn_all. rewrite drop_ge by lia. by rewrite app_nil_r.
Qed.

(** A failed [os.Create] leaves the world as it was. *)
Lemma os_Create_fail (e : Env) (w : World) (path : string) :
  (os_Create e w path).2 = None -> (os_Create e w path).1 = w.
Proof.
  unfold os_Create. destruct (create_fault e path); [done|].
  destruct (store w); [done..|]. destruct (entry_of w path); [|done].
  by case_decide.
Qed.

Lemma os_Create_cache (e : Env) (w : World) (path : string) :
  cache (os_Create e w path).1 = cache w.
Proof.
  unfold os_Create. destruct (create_fault e path); [done|].
  destruct (store w); [done..|]. destruct (entry_of w path); [|done].
  by case_decide.
Qed.

Lemma File_Write_cache (e : Env) (w : World) (file : File) (data : list byte) :
  cache (File_Write e w file data).1.1.1 = cache w.
Proof.
  unfold File_Write. destruct (f_closed file); [done|].
  destruct (store w); [done..|]. destruct (entry_of w (f_path file)); [|done].
  by destruct (_ !! _).
Qed.

Section Properties.

Context {B : Type} `{!ReadCloser B}.
Variable re : string -> option (list string).

(** ** The request handler *)

Lemma wait_for_download_now (sleeps : list (World -> World)) (w : World) (k : string) :
  index w k ≠ IN_PROGRESS -> wait_for_download sleeps w k = Some (index w k, w).
Proof.
  intros Hne. destruct sleeps; simpl; by rewrite bool_decide_false.
Qed.

(** The loop ends on a value other than [IN_PROGRESS], read in the world it
    returns. *)
Lemma wait_for_download_result (sleeps : list (World -> World)) (w w1 : World)
    (k : string) (in_cache : Z) :
  wait_for_download sleeps w k = Some (in_cache, w1) ->
  in_cache = index w1 k /\ in_cache ≠ IN_PROGRESS.
Proof.
  revert w. induction sleeps as [|others sleeps IH]; intros w; simpl;
    case_bool_decide; try done; try (intros [= <- <-]; done).
  apply IH.
Qed.

(** C1. For a key that is not in the index, or that reads [EMPTY] there,
    [CacheReqHandler] returns no response, so that the request goes
    upstream as it came, and leaves the key at [IN_PROGRESS] in the index;
    nothing else changes. *)
Theorem first_request_begins_fetch (e : Env) (sleeps : list (World -> World))
    (w : World) (req : Request) (k : string) :
  shouldBeCached re (URL_Path req) = k ->
  k ≠ "" ->
  index w k = EMPTY ->
  exists w' : World,
    CacheReqHandler (B:=B) re e sleeps w req = Some (w', req, None) /\
    cache w' !! k = Some IN_PROGRESS /\
    index w' k = IN_PROGRESS /\
    (forall k', k' ≠ k -> cache w' !! k' = cache w !! k') /\
    store w' = store w /\ cachedir w' = cachedir w.
Proof.
  intros Hk Hne Hidx. exists (set_index w k IN_PROGRESS).
  unfold CacheReqHandler. rewrite Hk, bool_decide_true by done.
  rewrite wait_for_download_now by (rewrite Hidx; done).
  rewrite Hidx, bool_decide_false by done.
  repeat split.
  - simpl. apply lookup_insert_eq.
  - apply index_set_index_eq.
  - intros k' Hk'. simpl. by apply lookup_insert_ne.
Qed.

(** Reading the file of a cache hit to its end gives what the file holds
    from the offset of the handle on. *)
Lemma ReadAll_file (fuel : nat) (e : Env) (w : World) (path : string) (off size : nat)
    (content : list byte) :
  file_at w path = Some content ->
  (0 < size)%nat ->
  (length content - off < fuel)%nat ->
  Body_ReadAll (B:=B) fuel e w
    (NopCloser {| f_path := path; f_off := off; f_closed := false |}) size
  = Some (drop off content).
Proof.
  intros Hfile Hsize. revert off.
  induction fuel as [|fuel IH]; intros off Hfuel; [lia|].
  cbn [Body_ReadAll Body_Read]. unfold File_Read. cbn [f_closed f_path f_off].
  rewrite Hfile, length_replicate.
  rewrite decide_False by lia.
  case_decide as Hn.
  - simpl. f_equal. symmetry. apply drop_ge.
    rewrite length_drop in Hn. lia.
  - cbn [fst snd]. rewrite Nat2Z.id.
    rewrite IH by (rewrite length_drop in Hn |- *; lia).
    simpl. f_equal.
    set (n := (size `min` length (drop off content))%nat).
    rewrite take_app_le by (rewrite length_take; lia).
    rewrite take_take, Nat.min_id.
    rewrite <- drop_drop. apply take_drop.
Qed.

(** C2. For a key that is [AVAILABLE] and whose file can be opened and
    stat'd, [CacheReqHandler] returns a response, so that the request does
    not go upstream: its status is 200, its only header is
    [Content-Type: application/octet-stream], its [ContentLength] is the size
    of the file, and its body is the file opened at offset 0, which read to
    the end gives exactly the bytes of the file.  The world is unchanged. *)
Theorem available_key_served_from_file (e : Env) (sleeps : list (World -> World))
    (w : World) (req : Request) (k : string) :
  shouldBeCached re (URL_Path req) = k ->
  k ≠ "" ->
  index w k = AVAILABLE ->
  is_Some (os_Open e w (cachedir w +:+ k)) ->
  is_Some (os_Stat e w (cachedir w +:+ k)) ->
  exists (content : list byte) (resp : Response B),
    file_at w (cachedir w +:+ k) = Some content /\
    CacheReqHandler re e sleeps w req = Some (w, req, Some resp) /\
    StatusCode resp = 200 /\
    Header resp = {[ "Content-Type" := ["application/octet-stream"] ]} /\
    ContentLength resp = Z.of_nat (length content) /\
    resp_Body resp =
      NopCloser {| f_path := cachedir w +:+ k; f_off := 0; f_closed := false |} /\
    resp_Request resp = req /\
    (forall (e' : Env) (size fuel : nat),
        (0 < size)%nat -> (length content < fuel)%nat ->
        Body_ReadAll fuel e' w (resp_Body resp) size = Some content).
Proof.
  intros Hk Hne Hidx [file Hopen] [fi Hstat].
  assert (exists content, file_at w (cachedir w +:+ k) = Some content) as [content Hfile].
  { unfold os_Open in Hopen. destruct (open_fault e _); [done|].
    destruct (file_at w _) as [c|]; [by exists c|done]. }
  assert (file = {| f_path := cachedir w +:+ k; f_off := 0; f_closed := false |}) as ->.
  { unfold os_Open in Hopen. destruct (open_fault e _); [done|].
    rewrite Hfile in Hopen. congruence. }
  assert (Size fi = Z.of_nat (length content)) as Hsize.
  { unfold os_Stat in Hstat. unfold file_at in Hfile.
    destruct (stat_fault e _); [done|].
    destruct (store w) as [| |es]; [done..|].
    destruct (entry_of w _) as [name|]; [|done].
    case_decide; [done|]. rewrite Hfile in Hstat. simpl in Hstat.
    injection Hstat as <-. done. }
  exists content. eexists. split; [done|]. split.
  { unfold CacheReqHandler. rewrite Hk, bool_decide_true by done.
    rewrite wait_for_download_now by (rewrite Hidx; done).
    rewrite Hidx, bool_decide_true by done.
    rewrite Hopen, Hstat. reflexivity. }
  cbn [StatusCode Header ContentLength resp_Body resp_Request].
  repeat split; [done|].
  intros e' size fuel Hs Hf.
  rewrite (ReadAll_file fuel e' w _ 0 size content) by (done || lia). done.
Qed.

(** C10. When the file of an [AVAILABLE] key cannot be opened or stat'd,
    [CacheReqHandler] returns no response and leaves the world as it is, the
    key [AVAILABLE]; [CacheRespHandler], run on the response of the fetch
    that follows, finds the key [AVAILABLE], returns the response with the
    body it came with and leaves the world as it is: nothing is written to
    the cache directory and the key stays [AVAILABLE]. *)
Theorem unreadable_entry_is_not_repaired (e : Env) (sleeps : list (World -> World))
    (w : World) (req : Request) (k : string) :
  shouldBeCached re (URL_Path req) = k ->
  k ≠ "" ->
  index w k = AVAILABLE ->
  os_Open e w (cachedir w +:+ k) = None \/ os_Stat e w (cachedir w +:+ k) = None ->
  CacheReqHandler (B:=B) re e sleeps w req = Some (w, req, None) /\
  index w k = AVAILABLE /\
  (forall (e' : Env) (resp : Response B),
      resp_Request resp = req ->
      CacheRespHandler re e' w resp = (w, resp)).
Proof.
  intros Hk Hne Hidx Hfail. split; [|split; [done|]].
  - unfold CacheReqHandler. rewrite Hk, bool_decide_true by done.
    rewrite wait_for_download_now by (rewrite Hidx; done).
    rewrite Hidx, bool_decide_true by done.
    destruct Hfail as [-> | Hstat]; [done|].
    rewrite Hstat. by destruct (os_Open e w _).
  - intros e' resp Hreq. unfold CacheRespHandler.
    case_bool_decide; [done|].
    rewrite Hreq, Hk, bool_decide_true by done.
    by rewrite Hidx, bool_decide_true.
Qed.

(** ** The response handler *)

(** C6. A response whose status is not 200 is returned as it is: its body
    is not wrapped, and the world, with the cache directory and the index,
    is as before. *)
Theorem non_200_passes_through (e : Env) (w : World) (resp : Response B) :
  StatusCode resp ≠ 200 ->
  CacheRespHandler re e w resp = (w, resp).
Proof.
  intros Hst. unfold CacheRespHandler. by rewrite bool_decide_true.
Qed.

(** C7. When the file of the key cannot be created, so that
    [newCacheTeeReader] fails, [CacheRespHandler] returns the response as it
    is, with the body it came with, and leaves the world as it is: a key that
    was [IN_PROGRESS] still is. *)
Theorem create_failure_passes_body_through (e : Env) (w : World) (resp : Response B)
    (k : string) :
  StatusCode resp = 200 ->
  shouldBeCached re (URL_Path (resp_Request resp)) = k ->
  k ≠ "" ->
  index w k = IN_PROGRESS ->
  (os_Create e w (cachedir w +:+ k)).2 = None ->
  (newCacheTeeReader e w k (resp_Body resp)).2 = None /\
  CacheRespHandler re e w resp = (w, resp) /\
  resp_Body (CacheRespHandler re e w resp).2 = resp_Body resp /\
  index (CacheRespHandler re e w resp).1 k = IN_PROGRESS.
Proof.
  intros Hst Hk Hne Hidx Hcreate.
  pose proof (os_Create_fail e w _ Hcreate) as Hw.
  assert (newCacheTeeReader e w k (resp_Body resp) = (w, None)) as Htee.
  { unfold newCacheTeeReader. cbn [fname].
    destruct (os_Create e w (cachedir w +:+ k)) as [w' [file|]]; simpl in *; [done|].
    by subst. }
  assert (CacheRespHandler re e w resp = (w, resp)) as Hresp.
  { unfold CacheRespHandler. rewrite bool_decide_false by (rewrite Hst; auto).
    rewrite Hk, bool_decide_true by done.
    rewrite Hidx, bool_decide_false by done.
    by rewrite Htee. }
  rewrite Htee, Hresp. done.
Qed.

(** ** The tee reader *)

(** A write through a handle that stands at the end of its file appends. *)
Lemma File_Write_at_end (e : Env) (w : World) (file : File) (data content : list byte) :
  f_closed file = false ->
  file_at w (f_path file) = Some content ->
  f_off file = length content ->
  let r := File_Write e w file data in
  let n := written e file data in
  file_at r.1.1.1 (f_path file) = Some (content ++ take n data) /\
  r.1.1.2 = {| f_path := f_path file; f_off := length (content ++ take n data);
               f_closed := false |} /\
  r.1.2 = Z.of_nat n /\
  r.2 = bool_decide (is_Some (write_fault e file data)).
Proof.
  intros Hopen Hfile Hoff. unfold file_at in Hfile. unfold File_Write.
  rewrite Hopen.
  destruct (store w) as [| |es] eqn:Hs; [done..|].
  destruct (entry_of w (f_path file)) as [name|] eqn:Hname; [|done].
  case_decide as Hne; [done|]. rewrite Hfile. cbn [fst snd].
  repeat split.
  - unfold file_at, entry_of in *. cbn [store cachedir set_store].
    rewrite Hname, decide_False by done.
    rewrite lookup_insert_eq, Hoff. by rewrite write_at_end.
  - f_equal. rewrite length_app, length_take. unfold written.
    destruct (write_fault e file data); lia.
Qed.

(** C4. A [Read] of the tee reader returns the count, the buffer and the
    error that the [Read] of the wrapped body returns, whatever the writes
    to the file do.  When the count is positive and the reader is the
    writer of its file, its handle at the end of it, the bytes read are
    appended to the file: all of them when the write succeeds, and the
    part written when it fails; when the count is not positive the world
    is left as the wrapped body leaves it. *)
Theorem tee_read_forwards_and_persists {X : Type}
    (body_Read : World -> X -> list byte -> World * X * list byte * Z * option error)
    (e : Env) (w : World) (tee : cacheTeeReader X) (p : list byte) :
  let r := body_Read w (body tee) p in
  let t := cacheTeeReader_Read body_Read e w tee p in
  let data := take (Z.to_nat r.1.2) r.1.1.2 in
  t.1.2 = r.1.2 /\ t.1.1.2 = r.1.1.2 /\ t.2 = r.2 /\
  body t.1.1.1.2 = r.1.1.1.2 /\
  (forall e' : Env,
      let t' := cacheTeeReader_Read body_Read e' w tee p in
      t'.1.2 = t.1.2 /\ t'.1.1.2 = t.1.1.2 /\ t'.2 = t.2) /\
  (forall content : list byte,
      0 < r.1.2 ->
      f_closed (f tee) = false ->
      file_at r.1.1.1.1 (f_path (f tee)) = Some content ->
      f_off (f tee) = length content ->
      file_at t.1.1.1.1 (f_path (f tee))
        = Some (content ++ take (written e (f tee) data) data) /\
      f_off (f t.1.1.1.2) = length (content ++ take (written e (f tee) data) data) /\
      (write_fault e (f tee) data = None ->
       file_at t.1.1.1.1 (f_path (f tee)) = Some (content ++ data))) /\
  (r.1.2 <= 0 -> t.1.1.1.1 = r.1.1.1.1).
Proof.
  unfold cacheTeeReader_Read.
  destruct (body_Read w (body tee) p) as [[[[w1 body'] p'] nread] err] eqn:Hr.
  cbn [fst snd].
  assert (forall e0 : Env,
    let t0 := (if bool_decide (0 < nread)
               then let '(w2, f', nbytes, _) :=
                      File_Write e0 w1 (f tee) (take (Z.to_nat nread) p') in
                    (w2, {| shaname := shaname tee; fname := fname tee; f := f';
                            body := body'; nbread := wrap64 (nbread tee + nread);
                            nbwritten := wrap64 (nbwritten tee + nbytes) |},
                     p', nread, err)
               else (w1, {| shaname := shaname tee; fname := fname tee; f := f tee;
                            body := body'; nbread := wrap64 (nbread tee + nread);
                            nbwritten := nbwritten tee |}, p', nread, err)) in
    t0.1.2 = nread /\ t0.1.1.2 = p' /\ t0.2 = err /\ body t0.1.1.1.2 = body') as Hfwd.
  { intros e0. case_bool_decide; [|done].
    by destruct (File_Write e0 w1 _ _) as [[[w2 f'] nbytes] err2]. }
  destruct (Hfwd e) as (Hn & Hp & Herr & Hbody).
  repeat split; try done.
  - by rewrite Hn; apply (Hfwd e').
  - by rewrite Hp; apply (Hfwd e').
  - by rewrite Herr; apply (Hfwd e').
  - rewrite bool_decide_true by done.
    destruct (File_Write_at_end e w1 (f tee) (take (Z.to_nat nread) p') content)
      as (Hfile & _); [done..|].
    by destruct (File_Write e w1 _ _) as [[[w2 f'] nbytes] err2].
  - rewrite bool_decide_true by done.
    destruct (File_Write_at_end e w1 (f tee) (take (Z.to_nat nread) p') content)
      as (_ & Hf & _); [done..|].
    destruct (File_Write e w1 _ _) as [[[w2 f'] nbytes] err2].
    cbn [fst snd f] in *. by rewrite Hf.
  - intros Hok. rewrite bool_decide_true by done.
    destruct (File_Write_at_end e w1 (f tee) (take (Z.to_nat nread) p') content)
      as (Hfile & _); [done..|].
    destruct (File_Write e w1 _ _) as [[[w2 f'] nbytes] err2].
    cbn [fst snd] in *. rewrite Hfile. unfold written. rewrite Hok.
    by rewrite firstn_all.
  - intros Hle. by rewrite bool_decide_false by lia.
Qed.

(** Reads keep a tee reader a tee reader for the same key and file name. *)
Lemma Body_Read_TeeBody (e : Env) (w : World) (tee : cacheTeeReader (Body B))
    (p : list byte) :
  exists tee' : cacheTeeReader (Body B),
    (Body_Read e w (TeeBody tee) p).1.1.1.2 = TeeBody tee' /\
    shaname tee' = shaname tee /\ fname tee' = fname tee.
Proof.
  cbn [Body_Read]. unfold cacheTeeReader_Read.
  destruct (Body_Read e w (body tee) p) as [[[[w1 body'] p'] nread] err].
  case_bool_decide.
  - destruct (File_Write e w1 _ _) as [[[w2 f'] nbytes] err2]. by eexists.
  - by eexists.
Qed.

Lemma Body_Reads_TeeBody (e : Env) (ps : list (list byte)) (w : World)
    (tee : cacheTeeReader (Body B)) :
  exists tee' : cacheTeeReader (Body B),
    (Body_Reads e w (TeeBody tee) ps).2 = TeeBody tee' /\
    shaname tee' = shaname tee /\ fname tee' = fname tee.
Proof.
  revert w tee. induction ps as [|p ps IH]; intros w tee; [by exists tee|].
  cbn [Body_Reads].
  destruct (Body_Read_TeeBody e w tee p) as (tee1 & Hb & Hsha & Hfn).
  destruct (Body_Read e w (TeeBody tee) p) as [[[[w1 b1] p1] n1] err1].
  cbn [fst snd] in Hb. subst b1.
  destruct (IH w1 tee1) as (tee2 & Hb2 & Hsha2 & Hfn2).
  exists tee2. by rewrite Hb2, Hsha2, Hfn2.
Qed.

(** C5. Whatever was read through a tee reader, and whatever the writes to
    its file did, [Close] closes the file and leaves the key [AVAILABLE] in
    the index; it returns no error and does not touch the cache directory. *)
Theorem close_marks_available (e : Env) (w : World) (tee : cacheTeeReader (Body B))
    (ps : list (list byte)) :
  let s := Body_Reads e w (TeeBody tee) ps in
  exists tee1 : cacheTeeReader (Body B),
    s.2 = TeeBody tee1 /\
    shaname tee1 = shaname tee /\
    let c := cacheTeeReader_Close s.1 tee1 in
    Body_Close s.1 s.2 = (c.1.1, TeeBody c.1.2, c.2) /\
    f_closed (f c.1.2) = true /\
    cache c.1.1 !! shaname tee = Some AVAILABLE /\
    index c.1.1 (shaname tee) = AVAILABLE /\
    c.2 = None /\
    store c.1.1 = store s.1.
Proof.
  intros s. destruct (Body_Reads_TeeBody e ps w tee) as (tee1 & Hb & Hsha & _).
  exists tee1. fold s in Hb. rewrite Hb. repeat split; [done|..].
  - cbn. rewrite <- Hsha. apply lookup_insert_eq.
  - cbn [cacheTeeReader_Close fst]. rewrite <- Hsha. apply index_set_index_eq.
Qed.

(** C8. Closing a tee reader a second time gives the index that closing it
    once gives: the key is [AVAILABLE], every other key is as it was before
    the first [Close], and neither [Close] returns an error. *)
Theorem mark_available_idempotent {X : Type} (w : World) (tee : cacheTeeReader X) :
  let c1 := cacheTeeReader_Close w tee in
  let c2 := cacheTeeReader_Close c1.1.1 c1.1.2 in
  cache c2.1.1 = cache c1.1.1 /\
  c2.1.1 = c1.1.1 /\
  index c2.1.1 (shaname tee) = AVAILABLE /\
  index c1.1.1 (shaname tee) = AVAILABLE /\
  (forall k : string, k ≠ shaname tee ->
      cache c2.1.1 !! k = cache w !! k /\ index c2.1.1 k = index w k) /\
  c1.2 = None /\ c2.2 = None.
Proof.
  cbn [cacheTeeReader_Close fst snd shaname].
  assert (set_index (set_index w (shaname tee) AVAILABLE) (shaname tee) AVAILABLE
          = set_index w (shaname tee) AVAILABLE) as Heq.
  { unfold set_index; simpl. by rewrite insert_insert_eq. }
  rewrite Heq. repeat split.
  - apply index_set_index_eq.
  - apply index_set_index_eq.
  - simpl. by rewrite lookup_insert_ne.
  - by rewrite index_set_index_ne.
Qed.

(** ** The startup scan *)

Lemma strip_prefix_self (d : string) : strip_prefix d d = Some "".
Proof. induction d as [|a d IH]; simpl; [done|]. by rewrite decide_True. Qed.

Lemma load_cache_lookup (files : list string) (c : gmap string Z) (k : string) :
  load_cache files c !! k = if decide (k ∈ files) then Some AVAILABLE else c !! k.
Proof.
  unfold load_cache. revert c.
  induction files as [|name files IH]; intros c.
  - destruct (decide (k ∈ [])) as [Hin|_]; [|done]. by apply elem_of_nil in Hin.
  - cbn [foldl]. rewrite IH.
    destruct (decide (k ∈ files)) as [Hin|Hout];
      destruct (decide (k ∈ name :: files)) as [Hin'|Hout']; try done.
    + exfalso. apply Hout'. apply elem_of_cons. by right.
    + apply elem_of_cons in Hin' as [->|?]; [|done]. apply lookup_insert_eq.
    + apply lookup_insert_ne. intros ->. apply Hout', elem_of_cons. by left.
Qed.

(** [ReadDir] lists the names of the entries, each once. *)
Lemma ReadDir_names (es : gmap string (list byte)) (k : string) :
  k ∈ merge_sort name_le (fst <$> map_to_list es) <-> is_Some (es !! k).
Proof.
  rewrite merge_sort_Permutation, list_elem_of_fmap. split.
  - intros [[k' c] [-> Hin]]. apply elem_of_map_to_list in Hin. by exists c.
  - intros [c Hc]. exists (k, c). split; [done|]. by apply elem_of_map_to_list.
Qed.

(** C9. The startup scan ends with [cachedir] ending in a slash.  When
    nothing was at that path, the directory is created, empty, and the index
    has no entry.  When the directory was there, the index holds exactly
    the names of its entries, each [AVAILABLE], and the directory is as it
    was.  When the missing directory cannot be created, or the directory
    cannot be listed, or something that is not a directory is in the way,
    the process exits. *)
Theorem startup_scan_loads_index (e : Env) (w : World) :
  let d := with_slash (cachedir w) in
  (store w = Absent -> mkdir_fault e d = false -> readdir_fault e d = false ->
   cacheInit e w = Some {| cachedir := d; cache := ∅; store := Dir ∅ |}) /\
  (forall es : gmap string (list byte),
      store w = Dir es -> stat_fault e d = false -> readdir_fault e d = false ->
      exists w' : World,
        cacheInit e w = Some w' /\ cachedir w' = d /\ store w' = Dir es /\
        (forall k : string,
            cache w' !! k = if decide (is_Some (es !! k)) then Some AVAILABLE else None) /\
        dom (cache w') = dom es) /\
  (store w = Absent -> mkdir_fault e d = true -> cacheInit e w = None) /\
  (readdir_fault e d = true -> cacheInit e w = None) /\
  (store w = NotDir -> cacheInit e w = None) /\
  (forall es : gmap string (list byte),
      store w = Dir es -> stat_fault e d = true -> cacheInit e w = None).
Proof.
  intros d.
  set (w0 := if negb (HasSuffix_slash (cachedir w))
             then {| cachedir := cachedir w +:+ "/"; cache := cache w; store := store w |}
             else w).
  assert (cachedir w0 = d) as Hd.
  { unfold w0, d, with_slash. by destruct (HasSuffix_slash (cachedir w)). }
  assert (store w0 = store w) as Hs.
  { unfold w0. by destruct (HasSuffix_slash (cachedir w)). }
  assert (forall es, store w = Dir es ->
            os_Stat e w0 (cachedir w0)
            = if stat_fault e d then None else Some {| IsDir := true; Size := 4096 |})
    as Hstat.
  { intros es Hes. unfold os_Stat, entry_of. rewrite Hs, Hes, Hd, strip_prefix_self.
    by destruct (stat_fault e d). }
  assert (forall s, store w = s -> (s = Absent \/ s = NotDir) ->
            os_Stat e w0 (cachedir w0) = None) as Hnostat.
  { intros s Hst Hcase. unfold os_Stat. rewrite Hs, Hst.
    destruct (stat_fault e (cachedir w0)); [done|]. by destruct Hcase as [-> | ->]. }
  unfold cacheInit. fold w0.
  repeat split.
  - intros Habs Hmk Hrd. rewrite (Hnostat Absent) by auto.
    unfold os_Mkdir. rewrite Hs, Habs, Hd, Hmk.
    unfold ioutil_ReadDir. cbn [cachedir store set_store]. rewrite Hd, Hrd.
    rewrite map_to_list_empty. done.
  - intros es Hes Hst Hrd. rewrite (Hstat es Hes), Hst. cbn [IsDir negb].
    unfold ioutil_ReadDir. cbn [cachedir store]. rewrite Hd, Hrd, Hs, Hes.
    eexists. split; [done|]. cbn [cachedir store cache].
    assert (forall k : string,
      load_cache (merge_sort name_le (fst <$> map_to_list es)) ∅ !! k
      = if decide (is_Some (es !! k)) then Some AVAILABLE else None) as Hlook.
    { intros k. rewrite load_cache_lookup.
      destruct (decide (is_Some (es !! k))) as [Hin|Hout].
      - rewrite decide_True; [done|]. by apply ReadDir_names.
      - rewrite decide_False; [done|]. by rewrite ReadDir_names. }
    repeat split; [done|].
    apply set_eq. intros k. rewrite !elem_of_dom, Hlook.
    destruct (decide (is_Some (es !! k))) as [Hin|Hout]; [done|].
    split; [by intros [? ?]|done].
  - intros Habs Hmk. rewrite (Hnostat Absent) by auto.
    unfold os_Mkdir. by rewrite Hs, Habs, Hd, Hmk.
  - intros Hrd.
    assert (forall w1 : World, cachedir w1 = d ->
              ioutil_ReadDir e {| cachedir := cachedir w1; cache := ∅; store := store w1 |}
              = None) as Hnone.
    { intros w1 Hw1. unfold ioutil_ReadDir. cbn [cachedir]. by rewrite Hw1, Hrd. }
    destruct (store w) as [| |es] eqn:Hst.
    + rewrite (Hnostat Absent) by auto. unfold os_Mkdir. rewrite Hs, Hd.
      destruct (mkdir_fault e d); [done|]. by rewrite Hnone.
    + rewrite (Hnostat NotDir) by auto. unfold os_Mkdir. by rewrite Hs.
    + rewrite (Hstat es) by done. destruct (stat_fault e d).
      * unfold os_Mkdir. by rewrite Hs.
      * cbn [IsDir negb]. by rewrite Hnone.
  - intros Hnd. rewrite (Hnostat NotDir) by auto. unfold os_Mkdir. by rewrite Hs, Hnd.
  - intros es Hes Hst. rewrite (Hstat es Hes), Hst. unfold os_Mkdir. by rewrite Hs, Hes.
Qed.

(** ** The index only moves forward *)

Lemma forward_refl (a : Z) : forward a a.
Proof. by unfold forward. Qed.

Lemma forward_trans (a b c : Z) : forward a b -> forward b c -> forward a c.
Proof. unfold forward. intros (? & ? & ?) (? & ? & ?). repeat split; auto; lia. Qed.

Lemma index_forward_refl (w : World) : index_forward w w.
Proof. intros k. apply forward_refl. Qed.

Lemma index_forward_trans (w1 w2 w3 : World) :
  index_forward w1 w2 -> index_forward w2 w3 -> index_forward w1 w3.
Proof. intros H12 H23 k. eapply forward_trans; [apply H12|apply H23]. Qed.

Lemma index_forward_same (w w' : World) : cache w' = cache w -> index_forward w w'.
Proof. intros Hc k. unfold index. rewrite Hc. apply forward_refl. Qed.

Lemma set_AVAILABLE_forward (w : World) (k : string) :
  index_forward w (set_index w k AVAILABLE).
Proof.
  intros k'. destruct (decide (k = k')) as [<-|Hne].
  - rewrite index_set_index_eq. unfold forward, rank.
    rewrite (bool_decide_true (AVAILABLE = AVAILABLE)) by done.
    repeat split; [|done]. repeat case_bool_decide; lia.
  - rewrite index_set_index_ne by done. apply forward_refl.
Qed.

Lemma set_IN_PROGRESS_forward (w : World) (k : string) :
  index w k ≠ IN_PROGRESS -> index w k ≠ AVAILABLE ->
  index_forward w (set_index w k IN_PROGRESS).
Proof.
  intros Hp Ha k'. destruct (decide (k = k')) as [<-|Hne].
  - rewrite index_set_index_eq. unfold forward, rank.
    rewrite (bool_decide_false (index w k = AVAILABLE)) by done.
    rewrite (bool_decide_false (index w k = IN_PROGRESS)) by done.
    repeat split; [lia|done..].
  - rewrite index_set_index_ne by done. apply forward_refl.
Qed.

(** Reading a body, of whatever kind, leaves the index alone. *)
Lemma Body_Read_cache (e : Env) (b : Body B) (w : World) (p : list byte) :
  cache (Body_Read e w b p).1.1.1.1 = cache w.
Proof.
  revert w p. induction b as [u|file|tee IH]; intros w p; cbn [Body_Read].
  - by destruct (rc_Read u p) as [[[u' p'] n] err].
  - by destruct (File_Read w file p) as [[[file' p'] n] err].
  - destruct IH as [sha fn fl bd IH nr nw]. unfold cacheTeeReader_Read.
    cbn [body f shaname fname nbread nbwritten].
    specialize (IH w p).
    destruct (Body_Read e w bd p) as [[[[w1 bd'] p'] nread] err].
    cbn [fst] in IH. case_bool_decide; [|done].
    pose proof (File_Write_cache e w1 fl (take (Z.to_nat nread) p')) as Hw.
    destruct (File_Write e w1 fl _) as [[[w2 f'] nbytes] err2].
    cbn [fst] in *. congruence.
Qed.

(** Every body keeps the contract of [io.Reader], so that the slice
    [p[:nread]] of [tee.Read] is within the buffer. *)
Lemma Body_Read_bounds (e : Env) (b : Body B) (w : World) (p : list byte) :
  (length (Body_Read e w b p).1.1.2 = length p) /\
  (0 <= (Body_Read e w b p).1.2 <= Z.of_nat (length p)).
Proof.
  revert w p. induction b as [u|file|tee IH]; intros w p; cbn [Body_Read].
  - pose proof (rc_Read_bounds u p) as Hb.
    by destruct (rc_Read u p) as [[[u' p'] n] err].
  - unfold File_Read. destruct (f_closed file); [cbn; lia|].
    destruct (file_at w (f_path file)) as [content|]; [|cbn; lia].
    repeat case_decide; cbn [fst snd]; try lia.
    rewrite length_app, length_take, !length_drop. lia.
  - destruct IH as [sha fn fl bd IH nr nw]. unfold cacheTeeReader_Read.
    cbn [body f shaname fname nbread nbwritten].
    specialize (IH w p).
    destruct (Body_Read e w bd p) as [[[[w1 bd'] p'] nread] err].
    cbn [fst snd] in IH. case_bool_decide; [|done].
    by destruct (File_Write e w1 fl _) as [[[w2 f'] nbytes] err2].
Qed.

Lemma Body_Close_forward (w : World) (b : Body B) :
  index_forward w (Body_Close w b).1.1.
Proof.
  destruct b as [u|file|tee]; cbn [Body_Close].
  - destruct (rc_Close u) as [u' err]. apply index_forward_refl.
  - apply index_forward_refl.
  - cbn. apply set_AVAILABLE_forward.
Qed.

Lemma CacheRespHandler_cache (e : Env) (w : World) (resp : Response B) :
  cache (CacheRespHandler re e w resp).1 = cache w.
Proof.
  unfold CacheRespHandler. repeat case_bool_decide; try done.
  unfold newCacheTeeReader. cbn [fname].
  pose proof (os_Create_cache e w
    (cachedir w +:+ shouldBeCached re (URL_Path (resp_Request resp)))) as Hc.
  by destruct (os_Create e w _) as [w' [file|]].
Qed.

Lemma wait_for_download_forward (sleeps : list (World -> World)) (w w1 : World)
    (k : string) (in_cache : Z) :
  Forall (fun others => forall w0, index_forward w0 (others w0)) sleeps ->
  wait_for_download sleeps w k = Some (in_cache, w1) ->
  index_forward w w1.
Proof.
  intros Hall. revert w. induction Hall as [|others sleeps Ho _ IH]; intros w; simpl;
    case_bool_decide; try done; try (intros [= _ <-]; apply index_forward_refl).
  intros Hw. eapply index_forward_trans; [apply Ho|by apply IH].
Qed.

(** A request handler moves the index forward when the goroutines that run
    during its sleeps do. *)
Lemma CacheReqHandler_forward (e : Env) (sleeps : list (World -> World)) (w w' : World)
    (req req' : Request) (resp : option (Response B)) :
  Forall (fun others => forall w0, index_forward w0 (others w0)) sleeps ->
  CacheReqHandler re e sleeps w req = Some (w', req', resp) ->
  index_forward w w'.
Proof.
  intros Hall. unfold CacheReqHandler.
  case_bool_decide; [|intros [= <- _ _]; apply index_forward_refl].
  destruct (wait_for_download sleeps w _) as [[in_cache w1]|] eqn:Hwait; [|done].
  pose proof (wait_for_download_forward _ _ _ _ _ Hall Hwait) as Hfw.
  apply wait_for_download_result in Hwait as [-> Hnp].
  case_bool_decide.
  - destruct (os_Open e w1 _); [destruct (os_Stat e w1 _)|];
      intros [= <- _ _]; done.
  - intros [= <- _ _]. eapply index_forward_trans; [done|].
    by apply set_IN_PROGRESS_forward.
Qed.

Lemma run_action_forward (a : Action B) (w : World) :
  index_forward w (run_action re a w).
Proof.
  destruct a as [e req|e resp|e b p|b]; cbn [run_action].
  - destruct (CacheReqHandler re e [] w req) as [[[w' req'] resp]|] eqn:Hreq;
      [|apply index_forward_refl].
    eapply CacheReqHandler_forward; [|done]. constructor.
  - apply index_forward_same, CacheRespHandler_cache.
  - apply index_forward_same, Body_Read_cache.
  - apply Body_Close_forward.
Qed.

Lemma run_actions_forward (acts : list (Action B)) (w : World) :
  index_forward w (run_actions re acts w).
Proof.
  unfold run_actions. revert w. induction acts as [|a acts IH]; intros w; simpl.
  - apply index_forward_refl.
  - eapply index_forward_trans; [apply run_action_forward|apply IH].
Qed.

Lemma transition_forward (w w' : World) :
  transition (B:=B) re w w' -> index_forward w w'.
Proof.
  intros Ht. destruct Ht as [e d s w' Hinit|e sleeps w req w' req' resp Hreq|e w resp|e w b p|w b].
  - intros k. unfold index at 1. cbn [process_start cache].
    rewrite lookup_empty. cbn [default]. unfold forward, rank.
    repeat split; try done. simpl. lia.
  - eapply CacheReqHandler_forward; [|done].
    apply Forall_fmap, Forall_forall. intros acts _ w0. apply run_actions_forward.
  - apply index_forward_same, CacheRespHandler_cache.
  - apply index_forward_same, Body_Read_cache.
  - apply Body_Close_forward.
Qed.

(** C3. Whatever operation of the cache takes the world from [w] to [w'] -
    a request handler, a response handler, a read or the [Close] of a
    response body, or the startup scan that [main] runs on the process at
    its start - every key is in [w'] at the state it has in [w] or further
    in the order [EMPTY], [IN_PROGRESS], [AVAILABLE]: a key that is not
    [EMPTY] does not become [EMPTY], and a key that is [AVAILABLE] stays
    [AVAILABLE]. *)
Theorem index_moves_forward (w w' : World) (k : string) :
  transition (B:=B) re w w' ->
  (rank (index w k) <= rank (index w' k))%nat /\
  (index w k ≠ EMPTY -> index w' k ≠ EMPTY) /\
  (index w k = AVAILABLE -> index w' k = AVAILABLE).
Proof. intros Ht. apply (transition_forward w w' Ht k). Qed.

(** The same along any sequence of operations. *)
Lemma execution_moves_index_forward (w w' : World) :
  rtc (transition (B:=B) re) w w' -> index_forward w w'.
Proof.
  induction 1 as [w|w1 w2 w3 Hstep _ IH]; [apply index_forward_refl|].
  eapply index_forward_trans; [by apply transition_forward|done].
Qed.

(** ** Around the claims *)

(** A new tee reader is at the end of its file, which is empty. *)
Lemma newCacheTeeReader_at_end {X : Type} (e : Env) (w w' : World) (k : string) (bd : X)
    (tee : cacheTeeReader X) :
  newCacheTeeReader e w k bd = (w', Some tee) ->
  at_end w' tee [] /\ shaname tee = k /\ fname tee = cachedir w +:+ k /\
  body tee = bd /\ cache w' = cache w.
Proof.
  unfold newCacheTeeReader, os_Create. cbn [fname shaname body nbread nbwritten].
  destruct (create_fault e _); [done|].
  destruct (store w) as [| |es] eqn:Hs; [done..|].
  rewrite entry_of_key. case_decide as Hk; [done|].
  intros [= <- <-]. unfold at_end, file_at, entry_of.
  cbn [f f_closed f_path f_off store cachedir set_store shaname fname body cache].
  rewrite strip_prefix_app, decide_False by done.
  by rewrite lookup_insert_eq.
Qed.

(** A read keeps the tee reader at the end of its file, when the wrapped
    body leaves the world alone, as a body of the transport does. *)
Lemma cacheTeeReader_Read_at_end {X : Type}
    (body_Read : World -> X -> list byte -> World * X * list byte * Z * option error)
    (e : Env) (w : World) (tee : cacheTeeReader X) (p content : list byte) :
  (body_Read w (body tee) p).1.1.1.1 = w ->
  at_end w tee content ->
  exists content' : list byte,
    at_end (cacheTeeReader_Read body_Read e w tee p).1.1.1.1
           (cacheTeeReader_Read body_Read e w tee p).1.1.1.2 content'.
Proof.
  intros Hw (Hopen & Hfile & Hoff). unfold cacheTeeReader_Read.
  destruct (body_Read w (body tee) p) as [[[[w1 body'] p'] nread] err].
  cbn [fst] in Hw. subst w1. case_bool_decide.
  - destruct (File_Write_at_end e w (f tee) (take (Z.to_nat nread) p') content)
      as (Hfile' & Hf & _); [done..|].
    destruct (File_Write e w _ _) as [[[w2 f'] nbytes] err2].
    cbn [fst snd f] in *. eexists. subst f'. by repeat split.
  - by exists content.
Qed.

(** While a key is [IN_PROGRESS] and nothing else runs, a request for it
    polls on, however long: the state a failed [os.Create] leaves behind. *)
Lemma in_progress_keeps_polling (e : Env) (n : nat) (w : World) (req : Request)
    (k : string) :
  shouldBeCached re (URL_Path req) = k ->
  k ≠ "" ->
  index w k = IN_PROGRESS ->
  CacheReqHandler (B:=B) re e (replicate n id) w req = None.
Proof.
  intros Hk Hne Hidx. unfold CacheReqHandler. rewrite Hk, bool_decide_true by done.
  assert (wait_for_download (replicate n id) w k = None) as ->; [|done].
  induction n as [|n IH]; simpl; by rewrite bool_decide_true.
Qed.

(** The startup scan builds the index from the directory alone: it does
    not read what [cache] held.  [main] calls it once, before it serves. *)
Lemma cacheInit_ignores_cache (e : Env) (w : World) (c : gmap string Z) :
  cacheInit e {| cachedir := cachedir w; cache := c; store := store w |} = cacheInit e w.
Proof.
  destruct w as [d c0 st]. unfold cacheInit. cbn [cachedir cache store].
  destruct (negb (HasSuffix_slash d));
    unfold os_Stat, os_Mkdir, entry_of; cbn [cachedir cache store];
    destruct (stat_fault e _); destruct st as [| |es];
    repeat (cbn [cachedir cache store set_store IsDir negb fmap option_fmap option_map];
            try done;
            match goal with
            | |- context [if mkdir_fault ?a ?b then _ else _] => destruct (mkdir_fault a b)
            | |- context [strip_prefix ?a ?b] => destruct (strip_prefix a b)
            | |- context [decide ?P] => destruct (decide P)
            | |- context [?m !! ?i] => destruct (m !! i)
            end).
Qed.

End Properties.

(** * Runs of the model *)

Example classify_blob : shouldBeCached re_ascii blob_path = "abc123".
Proof. reflexivity. Qed.

Example classify_other : shouldBeCached re_ascii "/v2/other/path" = "".
Proof. reflexivity. Qed.

Lemma first_request_begins_fetch_witness :
  shouldBeCached re_ascii (URL_Path blob_req) = "abc123" /\
  "abc123" ≠ "" /\
  index w_unknown "abc123" = EMPTY /\
  exists w' : World,
    CacheReqHandler (B:=list byte) re_ascii calm [] w_unknown blob_req
      = Some (w', blob_req, None) /\
    cache w' !! "abc123" = Some IN_PROGRESS /\
    index w' "abc123" = IN_PROGRESS /\
    (forall k', k' ≠ "abc123" -> cache w' !! k' = cache w_unknown !! k') /\
    store w' = store w_unknown /\ cachedir w' = cachedir w_unknown.
Proof.
  assert (shouldBeCached re_ascii (URL_Path blob_req) = "abc123") as H1 by reflexivity.
  assert ("abc123" ≠ "") as H2 by discriminate.
  assert (index w_unknown "abc123" = EMPTY) as H3 by reflexivity.
  repeat (split; [assumption|]).
  exact (first_request_begins_fetch (B:=list byte) re_ascii calm [] w_unknown blob_req
           "abc123" H1 H2 H3).
Defined.

Lemma available_key_served_from_file_witness :
  shouldBeCached re_ascii (URL_Path blob_req) = "abc123" /\
  "abc123" ≠ "" /\
  index w_cached "abc123" = AVAILABLE /\
  is_Some (os_Open calm w_cached (cachedir w_cached +:+ "abc123")) /\
  is_Some (os_Stat calm w_cached (cachedir w_cached +:+ "abc123")) /\
  exists (content : list byte) (resp : Response (list byte)),
    file_at w_cached (cachedir w_cached +:+ "abc123") = Some content /\
    CacheReqHandler re_ascii calm [] w_cached blob_req
      = Some (w_cached, blob_req, Some resp) /\
    StatusCode resp = 200 /\
    Header resp = {[ "Content-Type" := ["application/octet-stream"] ]} /\
    ContentLength resp = Z.of_nat (length content) /\
    resp_Body resp =
      NopCloser {| f_path := cachedir w_cached +:+ "abc123"; f_off := 0;
                   f_closed := false |} /\
    resp_Request resp = blob_req /\
    (forall (e' : Env) (size fuel : nat),
        (0 < size)%nat -> (length content < fuel)%nat ->
        Body_ReadAll fuel e' w_cached (resp_Body resp) size = Some content).
Proof.
  assert (shouldBeCached re_ascii (URL_Path blob_req) = "abc123") as H1 by reflexivity.
  assert ("abc123" ≠ "") as H2 by discriminate.
  assert (index w_cached "abc123" = AVAILABLE) as H3 by reflexivity.
  assert (is_Some (os_Open calm w_cached (cachedir w_cached +:+ "abc123"))) as H4
    by (eexists; reflexivity).
  assert (is_Some (os_Stat calm w_cached (cachedir w_cached +:+ "abc123"))) as H5
    by (eexists; reflexivity).
  repeat (split; [assumption|]).
  exact (available_key_served_from_file (B:=list byte) re_ascii calm [] w_cached blob_req
           "abc123" H1 H2 H3 H4 H5).
Defined.

(** The request waits for the fetch in progress; while it sleeps the tee
    reader of that fetch is closed, and the request is served from the
    file. *)
Lemma index_moves_forward_witness :
  transition (B:=list byte) re_ascii w_fetching (set_index w_fetching "abc123" AVAILABLE) /\
  (rank (index w_fetching "abc123")
   <= rank (index (set_index w_fetching "abc123" AVAILABLE) "abc123"))%nat /\
  (index w_fetching "abc123" ≠ EMPTY ->
   index (set_index w_fetching "abc123" AVAILABLE) "abc123" ≠ EMPTY) /\
  (index w_fetching "abc123" = AVAILABLE ->
   index (set_index w_fetching "abc123" AVAILABLE) "abc123" = AVAILABLE).
Proof.
  assert (transition (B:=list byte) re_ascii w_fetching
            (set_index w_fetching "abc123" AVAILABLE)) as Ht.
  { eapply (request_gate re_ascii calm
              [[ActClose (TeeBody (blob_tee (UpstreamBody [Byte.x69])))]]
              w_fetching blob_req).
    vm_compute. reflexivity. }
  split; [exact Ht|].
  exact (index_moves_forward (B:=list byte) re_ascii w_fetching _ "abc123" Ht).
Defined.

Lemma tee_read_forwards_and_persists_witness :
  let tee := blob_tee [Byte.x69; Byte.x6a] in
  let p := replicate 4 Byte.x00 in
  let r := upstream_Read w_fetching (body tee) p in
  let t := cacheTeeReader_Read upstream_Read calm w_fetching tee p in
  let data := take (Z.to_nat r.1.2) r.1.1.2 in
  0 < r.1.2 /\
  f_closed (f tee) = false /\
  file_at r.1.1.1.1 (f_path (f tee)) = Some [Byte.x68] /\
  f_off (f tee) = length [Byte.x68] /\
  t.1.2 = 2 /\ t.1.1.2 = [Byte.x69; Byte.x6a; Byte.x00; Byte.x00] /\ t.2 = None /\
  file_at t.1.1.1.1 (f_path (f tee)) = Some ([Byte.x68] ++ data) /\
  data = [Byte.x69; Byte.x6a].
Proof.
  intros tee p r t data.
  assert (0 < r.1.2) as H1 by reflexivity.
  assert (f_closed (f tee) = false) as H2 by reflexivity.
  assert (file_at r.1.1.1.1 (f_path (f tee)) = Some [Byte.x68]) as H3 by reflexivity.
  assert (f_off (f tee) = length [Byte.x68]) as H4 by reflexivity.
  repeat (split; [assumption|]).
  destruct (tee_read_forwards_and_persists upstream_Read calm w_fetching tee p)
    as (Hn & Hp & Herr & _ & _ & Happ & _).
  destruct (Happ [Byte.x68] H1 H2 H3 H4) as (_ & _ & Hall).
  split; [exact Hn|]. split; [exact Hp|]. split; [exact Herr|].
  split; [exact (Hall eq_refl)|reflexivity].
Defined.

(** Three bytes are read and one reaches the disk; [Close] marks the key
    [AVAILABLE] all the same, over a file of two bytes out of four. *)
Example close_after_failed_write :
  let tee := blob_tee (UpstreamBody [Byte.x69; Byte.x6a; Byte.x6b]) in
  let s := Body_Reads short_writes w_fetching (TeeBody tee) [replicate 4 Byte.x00] in
  let c := Body_Close s.1 s.2 in
  index c.1.1 "abc123" = AVAILABLE /\
  file_at c.1.1 "/tmp/proxy/abc123" = Some [Byte.x68; Byte.x69] /\
  exists tee' : cacheTeeReader (Body (list byte)),
    c.1.2 = TeeBody tee' /\ nbread tee' = 4 /\ nbwritten tee' = 2 /\
    f_closed (f tee') = true.
Proof. vm_compute. repeat split. eexists. repeat split. Qed.

Lemma non_200_passes_through_witness :
  StatusCode (blob_resp 404) ≠ 200 /\
  CacheRespHandler re_ascii calm w_fetching (blob_resp 404) = (w_fetching, blob_resp 404).
Proof.
  assert (StatusCode (blob_resp 404) ≠ 200) as H1 by discriminate.
  split; [exact H1|].
  exact (non_200_passes_through re_ascii calm w_fetching (blob_resp 404) H1).
Defined.

Lemma create_failure_passes_body_through_witness :
  StatusCode (blob_resp 200) = 200 /\
  shouldBeCached re_ascii (URL_Path (resp_Request (blob_resp 200))) = "abc123" /\
  "abc123" ≠ "" /\
  index w_fetching "abc123" = IN_PROGRESS /\
  (os_Create no_create w_fetching (cachedir w_fetching +:+ "abc123")).2 = None /\
  (newCacheTeeReader no_create w_fetching "abc123" (resp_Body (blob_resp 200))).2 = None /\
  CacheRespHandler re_ascii no_create w_fetching (blob_resp 200)
    = (w_fetching, blob_resp 200) /\
  resp_Body (CacheRespHandler re_ascii no_create w_fetching (blob_resp 200)).2
    = resp_Body (blob_resp 200) /\
  index (CacheRespHandler re_ascii no_create w_fetching (blob_resp 200)).1 "abc123"
    = IN_PROGRESS.
Proof.
  assert (StatusCode (blob_resp 200) = 200) as H1 by reflexivity.
  assert (shouldBeCached re_ascii (URL_Path (resp_Request (blob_resp 200))) = "abc123")
    as H2 by reflexivity.
  assert ("abc123" ≠ "") as H3 by discriminate.
  assert (index w_fetching "abc123" = IN_PROGRESS) as H4 by reflexivity.
  assert ((os_Create no_create w_fetching (cachedir w_fetching +:+ "abc123")).2 = None)
    as H5 by reflexivity.
  repeat (split; [assumption|]).
  exact (create_failure_passes_body_through re_ascii no_create w_fetching (blob_resp 200)
           "abc123" H1 H2 H3 H4 H5).
Defined.

Lemma unreadable_entry_is_not_repaired_witness :
  shouldBeCached re_ascii (URL_Path blob_req) = "abc123" /\
  "abc123" ≠ "" /\
  index w_cached "abc123" = AVAILABLE /\
  (os_Open no_open w_cached (cachedir w_cached +:+ "abc123") = None \/
   os_Stat no_open w_cached (cachedir w_cached +:+ "abc123") = None) /\
  CacheReqHandler (B:=list byte) re_ascii no_open [] w_cached blob_req
    = Some (w_cached, blob_req, None) /\
  index w_cached "abc123" = AVAILABLE /\
  (forall (e' : Env) (resp : Response (list byte)),
      resp_Request resp = blob_req ->
      CacheRespHandler re_ascii e' w_cached resp = (w_cached, resp)).
Proof.
  assert (shouldBeCached re_ascii (URL_Path blob_req) = "abc123") as H1 by reflexivity.
  assert ("abc123" ≠ "") as H2 by discriminate.
  assert (index w_cached "abc123" = AVAILABLE) as H3 by reflexivity.
  assert (os_Open no_open w_cached (cachedir w_cached +:+ "abc123") = None \/
          os_Stat no_open w_cached (cachedir w_cached +:+ "abc123") = None) as H4
    by (left; reflexivity).
  repeat (split; [assumption|]).
  exact (unreadable_entry_is_not_repaired (B:=list byte) re_ascii no_open [] w_cached
           blob_req "abc123" H1 H2 H3 H4).
Defined.

(** The process starts with [-d /tmp/proxy] over a directory that holds one
    blob. *)
Lemma startup_scan_loads_index_witness :
  let w := process_start "/tmp/proxy" (Dir {[ "abc123" := [Byte.x68; Byte.x69] ]}) in
  store w = Dir {[ "abc123" := [Byte.x68; Byte.x69] ]} /\
  stat_fault calm (with_slash (cachedir w)) = false /\
  readdir_fault calm (with_slash (cachedir w)) = false /\
  exists w' : World,
    cacheInit calm w = Some w' /\ cachedir w' = "/tmp/proxy/" /\
    store w' = Dir {[ "abc123" := [Byte.x68; Byte.x69] ]} /\
    cache w' !! "abc123" = Some AVAILABLE /\
    cache w' !! "other" = None.
Proof.
  intros w.
  assert (store w = Dir {[ "abc123" := [Byte.x68; Byte.x69] ]}) as H1 by reflexivity.
  assert (stat_fault calm (with_slash (cachedir w)) = false) as H2 by reflexivity.
  assert (readdir_fault calm (with_slash (cachedir w)) = false) as H3 by reflexivity.
  repeat (split; [assumption|]).
  destruct (startup_scan_loads_index calm w) as (_ & Hdir & _).
  destruct (Hdir _ H1 H2 H3) as (w' & Hinit & Hd & Hs & Hlook & _).
  exists w'. split; [exact Hinit|]. split; [exact Hd|]. split; [exact Hs|].
  split; [exact (Hlook "abc123")|exact (Hlook "other")].
Defined.

(** * Further properties of the handlers *)

Section Handlers.

Context {B : Type} `{!ReadCloser B}.
Variable re : string -> option (list string).

(** ** [newCacheTeeReader] and [CacheRespHandler] *)

Lemma entry_of_key' (w w' : World) (k : string) :
  cachedir w' = cachedir w -> entry_of w' (cachedir w +:+ k) = Some k.
Proof. intros Hd. unfold entry_of. rewrite Hd. apply strip_prefix_app. Qed.

(** What [newCacheTeeReader] returns, case by case. *)
Lemma newCacheTeeReader_cases {X : Type} (e : Env) (w : World) (k : string) (bd : X) :
  (forall es : gmap string (list byte),
      store w = Dir es -> k ≠ "" -> create_fault e (cachedir w +:+ k) = false ->
      newCacheTeeReader e w k bd =
        (set_store w (Dir (<[k := []]> es)),
         Some {| shaname := k; fname := cachedir w +:+ k;
                 f := {| f_path := cachedir w +:+ k; f_off := 0; f_closed := false |};
                 body := bd; nbread := 0; nbwritten := 0 |})) /\
  ((forall es : gmap string (list byte), store w ≠ Dir es) \/ k = "" \/
   create_fault e (cachedir w +:+ k) = true ->
   newCacheTeeReader e w k bd = (w, None)).
Proof.
  unfold newCacheTeeReader, os_Create. cbn [fname shaname body nbread nbwritten].
  rewrite entry_of_key. split.
  - intros es Hs Hk Hc. by rewrite Hc, Hs, decide_False.
  - intros Hfail. destruct (create_fault e _); [done|].
    destruct (store w) as [| |es]; [done..|].
    case_decide; [done|]. destruct Hfail as [Hs|[?|?]]; [|done..].
    by destruct (Hs es).
Qed.

(** X1. [newCacheTeeReader] succeeds exactly when the cache directory is
    there, the key is not empty and the file can be created.  It then
    leaves an empty file under the name of the key, whatever the file held
    before, and returns a reader for the key with that file open at offset
    0, the body it was given and both counters at 0; the other files, the
    index and [cachedir] are as before.  When it fails the world is as
    before. *)
Theorem new_tee_creates_empty_file {X : Type} (e : Env) (w : World) (k : string) (bd : X) :
  let r := newCacheTeeReader e w k bd in
  (is_Some r.2 <->
   (exists es, store w = Dir es) /\ k ≠ "" /\ create_fault e (cachedir w +:+ k) = false) /\
  (r.2 = None -> r.1 = w) /\
  (forall tee : cacheTeeReader X,
      r.2 = Some tee ->
      tee = {| shaname := k; fname := cachedir w +:+ k;
               f := {| f_path := cachedir w +:+ k; f_off := 0; f_closed := false |};
               body := bd; nbread := 0; nbwritten := 0 |} /\
      file_at r.1 (cachedir w +:+ k) = Some [] /\
      (forall k' : string,
          k' ≠ k -> file_at r.1 (cachedir w +:+ k') = file_at w (cachedir w +:+ k')) /\
      cache r.1 = cache w /\ cachedir r.1 = cachedir w).
Proof.
  intros r. unfold r.
  destruct (newCacheTeeReader_cases e w k bd) as [Hok Hfail].
  destruct (store w) as [| |es] eqn:Hs.
  1,2: rewrite Hfail by (left; congruence); cbn [fst snd];
       split; [split; [by intros [? ?]|by intros ([? ?] & _)]|done].
  destruct (decide (k = "")) as [Hk|Hk].
  { rewrite Hfail by auto. cbn [fst snd].
    split; [split; [by intros [? ?]|by intros (_ & ? & _)]|done]. }
  destruct (create_fault e (cachedir w +:+ k)) eqn:Hc.
  { rewrite Hfail by auto. cbn [fst snd].
    split; [split; [by intros [? ?]|by intros (_ & _ & ?)]|done]. }
  rewrite (Hok es) by done. cbn [fst snd].
  split; [split; [by eauto|by eexists]|]. split; [done|].
  intros tee [= <-]. split; [done|].
  unfold file_at. cbn [store cachedir set_store cache].
  rewrite Hs. repeat split.
  - rewrite (entry_of_key' w) by done. rewrite decide_False by done.
    apply lookup_insert_eq.
  - intros k' Hne. rewrite !(entry_of_key' w) by done.
    case_decide; [done|]. by rewrite lookup_insert_ne.
Qed.

(** X2. On a response with status 200 for a key that is not [AVAILABLE],
    and when the file can be created, [CacheRespHandler] returns the
    response with its body wrapped in a new tee reader for the key and all
    its other fields as they were; the file of the key is there, empty, and
    the index is untouched. *)
Theorem response_gate_attaches_tee (e : Env) (w : World) (resp : Response B)
    (k : string) (es : gmap string (list byte)) :
  StatusCode resp = 200 ->
  shouldBeCached re (URL_Path (resp_Request resp)) = k ->
  k ≠ "" ->
  index w k ≠ AVAILABLE ->
  store w = Dir es ->
  create_fault e (cachedir w +:+ k) = false ->
  CacheRespHandler re e w resp =
    (set_store w (Dir (<[k := []]> es)),
     {| StatusCode := StatusCode resp; Header := Header resp;
        ContentLength := ContentLength resp;
        resp_TransferEncoding := resp_TransferEncoding resp;
        resp_Body :=
          TeeBody {| shaname := k; fname := cachedir w +:+ k;
                     f := {| f_path := cachedir w +:+ k; f_off := 0; f_closed := false |};
                     body := resp_Body resp; nbread := 0; nbwritten := 0 |};
        resp_Request := resp_Request resp |}) /\
  file_at (CacheRespHandler re e w resp).1 (cachedir w +:+ k) = Some [] /\
  cache (CacheRespHandler re e w resp).1 = cache w.
Proof.
  intros Hst Hk Hne Hidx Hs Hc.
  match goal with
  | |- ?lhs = ?rhs /\ _ => assert (lhs = rhs) as Hresp; [|rewrite Hresp; split; [done|]]
  end.
  { unfold CacheRespHandler. rewrite bool_decide_false by (rewrite Hst; auto).
    rewrite Hk, bool_decide_true by done. rewrite bool_decide_false by done.
    destruct (newCacheTeeReader_cases e w k (resp_Body resp)) as [Hok _].
    rewrite (Hok es) by done. reflexivity. }
  split; [|done]. unfold file_at. cbn [fst store set_store].
  rewrite (entry_of_key' w) by done. rewrite decide_False by done.
  apply lookup_insert_eq.
Qed.

(** X3. Whatever the response and the faults, [CacheRespHandler] changes
    neither the index nor [cachedir], touches no file but the one of the
    key of the request, and returns the response with every field but the
    body as it was; the body is the one it came with or a tee reader around
    it. *)
Theorem response_gate_frame (e : Env) (w : World) (resp : Response B) :
  let r := CacheRespHandler re e w resp in
  cache r.1 = cache w /\ cachedir r.1 = cachedir w /\
  (forall k' : string,
      k' ≠ shouldBeCached re (URL_Path (resp_Request resp)) ->
      file_at r.1 (cachedir w +:+ k') = file_at w (cachedir w +:+ k')) /\
  StatusCode r.2 = StatusCode resp /\ Header r.2 = Header resp /\
  ContentLength r.2 = ContentLength resp /\
  resp_TransferEncoding r.2 = resp_TransferEncoding resp /\
  resp_Request r.2 = resp_Request resp /\
  (resp_Body r.2 = resp_Body resp \/
   exists tee : cacheTeeReader (Body B),
     resp_Body r.2 = TeeBody tee /\ body tee = resp_Body resp /\
     shaname tee = shouldBeCached re (URL_Path (resp_Request resp))).
Proof.
  intros r. unfold r, CacheRespHandler.
  set (k := shouldBeCached re (URL_Path (resp_Request resp))).
  repeat case_bool_decide; try (repeat split; auto; done).
  destruct (newCacheTeeReader_cases e w k (resp_Body resp)) as [Hok Hfail].
  destruct (store w) as [| |es] eqn:Hs.
  1,2: rewrite Hfail by (left; congruence); repeat split; auto.
  destruct (create_fault e (cachedir w +:+ k)) eqn:Hc.
  { rewrite Hfail by auto. repeat split; auto. }
  rewrite (Hok es) by done. cbn [fst snd].
  repeat split; try done.
  - intros k' Hne. unfold file_at. cbn [store set_store]. rewrite Hs.
    rewrite !(entry_of_key' w) by done.
    case_decide; [done|]. by rewrite lookup_insert_ne.
  - right. by eexists.
Qed.

(** ** [CacheReqHandler] *)

(** X4. When [CacheReqHandler] returns for a request with a key, whatever
    the other goroutines did in between, the request is the one it was
    given, and: if it returns a response, the key is [AVAILABLE], its file
    is there, and the response has status 200, the size of the file as
    [ContentLength] and the file opened at offset 0 as body; if it returns
    none, either the key is now [IN_PROGRESS], set by this call, or the key
    is [AVAILABLE] and its file could not be opened or stat'd. *)
Theorem request_gate_outcomes (e : Env) (sleeps : list (World -> World)) (w w' : World)
    (req req' : Request) (resp : option (Response B)) (k : string) :
  shouldBeCached re (URL_Path req) = k ->
  k ≠ "" ->
  CacheReqHandler re e sleeps w req = Some (w', req', resp) ->
  req' = req /\
  match resp with
  | Some r =>
      index w' k = AVAILABLE /\
      exists content : list byte,
        file_at w' (cachedir w' +:+ k) = Some content /\
        StatusCode r = 200 /\
        ContentLength r = Z.of_nat (length content) /\
        resp_Body r = NopCloser {| f_path := cachedir w' +:+ k; f_off := 0;
                                   f_closed := false |}
  | None =>
      (index w' k = IN_PROGRESS /\
       exists w1 : World, w' = set_index w1 k IN_PROGRESS /\
                          index w1 k ≠ IN_PROGRESS /\ index w1 k ≠ AVAILABLE) \/
      (index w' k = AVAILABLE /\
       (os_Open e w' (cachedir w' +:+ k) = None \/
        os_Stat e w' (cachedir w' +:+ k) = None))
  end.
Proof.
  intros Hk Hne. unfold CacheReqHandler. rewrite Hk, bool_decide_true by done.
  destruct (wait_for_download sleeps w k) as [[in_cache w1]|] eqn:Hwait; [|done].
  apply wait_for_download_result in Hwait as [-> Hnp].
  case_bool_decide as Hav.
  - destruct (os_Open e w1 _) as [file|] eqn:Hopen.
    + destruct (os_Stat e w1 _) as [fi|] eqn:Hstat.
      * intros [= <- <- <-]. split; [done|]. split; [done|].
        unfold os_Open in Hopen. destruct (open_fault e _); [done|].
        destruct (file_at w1 _) as [content|] eqn:Hfile; [|done].
        exists content. split; [done|]. cbn [StatusCode ContentLength resp_Body].
        injection Hopen as <-. repeat split.
        unfold os_Stat in Hstat. unfold file_at in Hfile.
        destruct (stat_fault e _); [done|].
        destruct (store w1) as [| |es]; [done..|].
        destruct (entry_of w1 _) as [name|]; [|done].
        case_decide; [done|]. rewrite Hfile in Hstat. by injection Hstat as <-.
      * intros [= <- <- <-]. split; [done|]. right. auto.
    + intros [= <- <- <-]. split; [done|]. right. auto.
  - intros [= <- <- <-]. split; [done|]. left.
    split; [apply index_set_index_eq|]. by exists w1.
Qed.

(** A request for a key that stays [IN_PROGRESS] through every sleep does
    not return. *)
Lemma wait_for_download_blocked (sleeps : list (World -> World)) (w : World) (k : string) :
  Forall (fun others => forall w0, index w0 k = IN_PROGRESS ->
                                   index (others w0) k = IN_PROGRESS) sleeps ->
  index w k = IN_PROGRESS ->
  wait_for_download sleeps w k = None.
Proof.
  intros Hall. revert w. induction Hall as [|others sleeps Ho _ IH]; intros w Hidx;
    simpl; rewrite bool_decide_true by done; [done|].
  apply IH. by apply Ho.
Qed.

(** X5. While the key of a request is [IN_PROGRESS], and as long as what
    the other goroutines do leaves it so, [CacheReqHandler] does not
    return: it neither answers nor lets the request go upstream. *)
Theorem request_gate_waits (e : Env) (sleeps : list (World -> World)) (w : World)
    (req : Request) (k : string) :
  shouldBeCached re (URL_Path req) = k ->
  k ≠ "" ->
  index w k = IN_PROGRESS ->
  Forall (fun others => forall w0, index w0 k = IN_PROGRESS ->
                                   index (others w0) k = IN_PROGRESS) sleeps ->
  CacheReqHandler (B:=B) re e sleeps w req = None.
Proof.
  intros Hk Hne Hidx Hall. unfold CacheReqHandler.
  rewrite Hk, bool_decide_true by done.
  by rewrite wait_for_download_blocked.
Qed.


(** ** A fetch from the first request to the first hit *)

Lemma wrap64_add_l (a b : Z) : wrap64 (wrap64 a + b) = wrap64 (a + b).
Proof.
  unfold wrap64. f_equal.
  replace ((a + 2 ^ 63) mod 2 ^ 64 - 2 ^ 63 + b + 2 ^ 63)
    with ((a + 2 ^ 63) mod 2 ^ 64 + b) by lia.
  rewrite Z.add_mod_idemp_l by lia. f_equal. lia.
Qed.

Lemma File_Write_cachedir (e : Env) (w : World) (file : File) (data : list byte) :
  cachedir (File_Write e w file data).1.1.1 = cachedir w.
Proof.
  unfold File_Write. destruct (f_closed file); [done|].
  destruct (store w); [done..|]. destruct (entry_of w (f_path file)); [|done].
  by destruct (_ !! _).
Qed.

Lemma written_le (e : Env) (file : File) (data : list byte) :
  (written e file data <= length data)%nat.
Proof. unfold written. destruct (write_fault e file data); lia. Qed.

(** What an upstream body delivers does not depend on the world. *)
Lemma upstream_data_any_world (e e' : Env) (ps : list (list byte)) (w w' : World) (u : B) :
  Body_Reads_data e w (UpstreamBody u) ps = Body_Reads_data e' w' (UpstreamBody u) ps.
Proof.
  revert w w' u. induction ps as [|p ps IH]; intros w w' u; [done|].
  cbn [Body_Reads_data Body_Read].
  destruct (rc_Read u p) as [[[u' p'] n] err]. f_equal. apply IH.
Qed.

(** One read through a tee reader around an upstream body: what is
    returned is what the body returns, and the reader stays at the end of
    its file, with [nbwritten] the size of the file. *)
Lemma tee_upstream_Read (e : Env) (w : World) (tee : cacheTeeReader (Body B)) (u : B)
    (p : list byte) :
  body tee = UpstreamBody u ->
  let data := take (Z.to_nat (rc_Read u p).1.2) (rc_Read u p).1.1.2 in
  exists (w' : World) (tee' : cacheTeeReader (Body B)),
    Body_Read e w (TeeBody tee) p
      = (w', TeeBody tee', (rc_Read u p).1.1.2, (rc_Read u p).1.2, (rc_Read u p).2) /\
    body tee' = UpstreamBody (rc_Read u p).1.1.1 /\
    shaname tee' = shaname tee /\
    nbread tee' = wrap64 (nbread tee + Z.of_nat (length data)) /\
    cache w' = cache w /\ cachedir w' = cachedir w /\
    (forall content : list byte,
        at_end w tee content ->
        at_end w' tee' (content ++ take (written e (f tee) data) data) /\
        f_path (f tee') = f_path (f tee) /\
        (nbwritten tee = wrap64 (Z.of_nat (length content)) ->
         nbwritten tee'
         = wrap64 (Z.of_nat (length (content ++ take (written e (f tee) data) data))))).
Proof.
  intros Hbody data. subst data. cbn [Body_Read]. unfold cacheTeeReader_Read.
  rewrite Hbody. cbn [Body_Read].
  pose proof (rc_Read_bounds u p) as [Hlen Hbound].
  destruct (rc_Read u p) as [[[u' p'] n] err]. cbn [fst snd] in *.
  assert (Z.of_nat (length (take (Z.to_nat n) p')) = n) as Hdata.
  { rewrite length_take. lia. }
  case_bool_decide as Hn.
  - pose proof (File_Write_cache e w (f tee) (take (Z.to_nat n) p')) as Hcache.
    pose proof (File_Write_cachedir e w (f tee) (take (Z.to_nat n) p')) as Hdir.
    pose proof (File_Write_at_end e w (f tee) (take (Z.to_nat n) p')) as Hend.
    destruct (File_Write e w (f tee) _) as [[[w2 f'] nbytes] err2].
    cbn [fst snd] in *. eexists _, _. split; [reflexivity|].
    cbn [body shaname nbread nbwritten f].
    split; [done|]. split; [done|]. split; [by rewrite Hdata|].
    split; [done|]. split; [done|].
    intros content (Hopen & Hfile & Hoff).
    destruct (Hend content Hopen Hfile Hoff) as (Hfile' & -> & -> & _).
    split; [by repeat split|]. split; [done|].
    intros ->. rewrite wrap64_add_l. f_equal.
    rewrite length_app, length_take.
    pose proof (written_le e (f tee) (take (Z.to_nat n) p')). lia.
  - assert (take (Z.to_nat n) p' = []) as ->.
    { replace (Z.to_nat n) with 0%nat by lia. done. }
    eexists _, _. split; [reflexivity|].
    cbn [body shaname nbread nbwritten f take length].
    split; [done|]. split; [done|]. split; [f_equal; lia|].
    split; [done|]. split; [done|].
    intros content (Hopen & Hfile & Hoff). rewrite take_nil, app_nil_r.
    unfold at_end. cbn [f]. by repeat split.
Qed.

(** Successive reads through a tee reader around an upstream body. *)
Lemma tee_upstream_Reads (e : Env) (ps : list (list byte)) (w : World)
    (tee : cacheTeeReader (Body B)) (u : B) :
  body tee = UpstreamBody u ->
  let data := Body_Reads_data e w (UpstreamBody u) ps in
  let s := Body_Reads e w (TeeBody tee) ps in
  Body_Reads_data e w (TeeBody tee) ps = data /\
  exists tee' : cacheTeeReader (Body B),
    s.2 = TeeBody tee' /\
    shaname tee' = shaname tee /\
    (forall m : Z, nbread tee = wrap64 m ->
                   nbread tee' = wrap64 (m + Z.of_nat (length data))) /\
    cache s.1 = cache w /\ cachedir s.1 = cachedir w /\
    (forall content : list byte,
        at_end w tee content ->
        (forall file d, write_fault e file d = None) ->
        at_end s.1 tee' (content ++ data) /\
        f_path (f tee') = f_path (f tee) /\
        (nbwritten tee = wrap64 (Z.of_nat (length content)) ->
         nbwritten tee' = wrap64 (Z.of_nat (length (content ++ data))))).
Proof.
  revert w tee u. induction ps as [|p ps IH]; intros w tee u Hbody.
  - cbn. split; [done|]. exists tee.
    split; [done|]. split; [done|].
    split; [intros m ->; f_equal; lia|]. split; [done|]. split; [done|].
    intros content Hend _. by rewrite app_nil_r.
  - cbn zeta. cbn [Body_Reads_data Body_Reads].
    destruct (tee_upstream_Read e w tee u p Hbody)
      as (w1 & tee1 & Hread & Hbody1 & Hsha1 & Hnr1 & Hc1 & Hd1 & Hend1).
    rewrite Hread. cbn [Body_Read]. 
    destruct (rc_Read u p) as [[[u1 p1] n1] err1] eqn:Hu. cbn [fst snd] in *.
    destruct (IH w1 tee1 u1 Hbody1) as (Hdata & tee2 & Hs2 & Hsha2 & Hnr2 & Hc2 & Hd2 & Hend2).
    rewrite (upstream_data_any_world e e ps w w1 u1).
    split; [by rewrite Hdata|].
    exists tee2. split; [done|]. split; [congruence|].
    split.
    { intros m Hm.
      rewrite (Hnr2 (m + Z.of_nat (length (take (Z.to_nat n1) p1)))).
      - f_equal. rewrite length_app. lia.
      - by rewrite Hnr1, Hm, wrap64_add_l. }
    split; [congruence|]. split; [congruence|].
    intros content Hend Hcalm.
    destruct (Hend1 content Hend) as (Hend1' & Hpath1 & Hnw1).
    assert (written e (f tee) (take (Z.to_nat n1) p1) = length (take (Z.to_nat n1) p1))
      as Hw by (unfold written; by rewrite Hcalm).
    rewrite Hw, firstn_all in Hend1', Hnw1.
    destruct (Hend2 _ Hend1' Hcalm) as (Hend2' & Hpath2 & Hnw2).
    rewrite <- app_assoc in Hend2', Hnw2.
    split; [done|]. split; [congruence|]. auto.
Qed.

(** X7. The consumer of a tee reader around a body of the transport
    receives, read after read, exactly the bytes the body delivers,
    whatever happens to the file: failed or short writes, a closed or a
    missing file. *)
Theorem tee_delivers_upstream_bytes (e e' : Env) (w w' : World)
    (tee : cacheTeeReader (Body B)) (u : B) (ps : list (list byte)) :
  body tee = UpstreamBody u ->
  Body_Reads_data e w (TeeBody tee) ps = Body_Reads_data e' w' (UpstreamBody u) ps.
Proof.
  intros Hbody. destruct (tee_upstream_Reads e ps w tee u Hbody) as [-> _].
  apply upstream_data_any_world.
Qed.

(** X8. When no write fails, and the tee reader is the writer of its file,
    its handle at the end of it, the file holds after any number of reads
    what it held before followed by all the bytes delivered; the reader is
    still at the end of the file, and the index and [cachedir] are
    untouched.  The counters follow, modulo 2^64: [nbread] grows by the
    number of bytes delivered, and [nbwritten], when it was the size of the
    file, still is. *)
Theorem tee_persists_stream (e : Env) (w : World) (tee : cacheTeeReader (Body B)) (u : B)
    (ps : list (list byte)) (content : list byte) :
  body tee = UpstreamBody u ->
  at_end w tee content ->
  (forall file d, write_fault e file d = None) ->
  let data := Body_Reads_data e w (TeeBody tee) ps in
  let s := Body_Reads e w (TeeBody tee) ps in
  file_at s.1 (f_path (f tee)) = Some (content ++ data) /\
  cache s.1 = cache w /\ cachedir s.1 = cachedir w /\
  exists tee' : cacheTeeReader (Body B),
    s.2 = TeeBody tee' /\
    at_end s.1 tee' (content ++ data) /\
    shaname tee' = shaname tee /\
    (forall m : Z, nbread tee = wrap64 m ->
                   nbread tee' = wrap64 (m + Z.of_nat (length data))) /\
    (nbwritten tee = wrap64 (Z.of_nat (length content)) ->
     nbwritten tee' = wrap64 (Z.of_nat (length (content ++ data)))).
Proof.
  intros Hbody Hend Hcalm.
  destruct (tee_upstream_Reads e ps w tee u Hbody)
    as (Hdata & tee' & Hs & Hsha & Hnr & Hc & Hd & Hend').
  destruct (Hend' content Hend Hcalm) as (Hat & Hpath & Hnw).
  cbn zeta. rewrite Hdata.
  split; [rewrite <- Hpath; apply Hat|]. split; [done|]. split; [done|].
  exists tee'. split; [done|]. split; [exact Hat|]. split; [done|].
  split; [exact Hnr|exact Hnw].
Qed.

(** The response of a hit, and the world after a miss. *)
Lemma CacheReqHandler_hit (e : Env) (sleeps : list (World -> World)) (w : World)
    (req : Request) (k : string) (content : list byte) :
  shouldBeCached re (URL_Path req) = k ->
  k ≠ "" ->
  index w k = AVAILABLE ->
  file_at w (cachedir w +:+ k) = Some content ->
  open_fault e (cachedir w +:+ k) = false ->
  stat_fault e (cachedir w +:+ k) = false ->
  CacheReqHandler (B:=B) re e sleeps w req =
    Some (w, req,
          Some {| StatusCode := 200;
                  Header := Header_Add "Content-Type" "application/octet-stream" ∅;
                  ContentLength := Z.of_nat (length content);
                  resp_TransferEncoding := req_TransferEncoding req;
                  resp_Body := NopCloser {| f_path := cachedir w +:+ k; f_off := 0;
                                            f_closed := false |};
                  resp_Request := req |}).
Proof.
  intros Hk Hne Hidx Hfile Hopen Hstat. unfold CacheReqHandler.
  rewrite Hk, bool_decide_true by done.
  rewrite wait_for_download_now by (rewrite Hidx; done).
  rewrite Hidx, bool_decide_true by done.
  unfold os_Open, os_Stat. rewrite Hopen, Hstat, Hfile.
  unfold file_at in Hfile. destruct (store w) as [| |es]; [done..|].
  destruct (entry_of w _) as [name|]; [|done].
  case_decide; [done|]. by rewrite Hfile.
Qed.

Lemma CacheReqHandler_miss (e : Env) (sleeps : list (World -> World)) (w : World)
    (req : Request) (k : string) :
  shouldBeCached re (URL_Path req) = k ->
  k ≠ "" ->
  index w k ≠ IN_PROGRESS ->
  index w k ≠ AVAILABLE ->
  CacheReqHandler (B:=B) re e sleeps w req = Some (set_index w k IN_PROGRESS, req, None).
Proof.
  intros Hk Hne Hp Ha. unfold CacheReqHandler. rewrite Hk, bool_decide_true by done.
  rewrite wait_for_download_now by done. by rewrite bool_decide_false.
Qed.

(** X9. A fetch from end to end.  The first request for a key finds it
    [EMPTY] and goes upstream; the response, with status 200, gets a tee
    reader; the client reads the body through it, no write failing, and
    the body is closed.  Then the client has received exactly the bytes
    the upstream body delivered, the key is [AVAILABLE], the file of the
    key holds exactly these bytes, and a later request for the key is
    answered with them, under the right length, without going upstream. *)
Theorem fetch_then_hit (e e2 : Env) (sleeps sleeps2 : list (World -> World)) (w : World)
    (req req2 : Request) (resp : Response B) (u : B) (ps : list (list byte)) (k : string)
    (es : gmap string (list byte)) :
  shouldBeCached re (URL_Path req) = k ->
  shouldBeCached re (URL_Path req2) = k ->
  k ≠ "" ->
  index w k = EMPTY ->
  store w = Dir es ->
  StatusCode resp = 200 ->
  resp_Request resp = req ->
  resp_Body resp = UpstreamBody u ->
  create_fault e (cachedir w +:+ k) = false ->
  (forall file d, write_fault e file d = None) ->
  open_fault e2 (cachedir w +:+ k) = false ->
  stat_fault e2 (cachedir w +:+ k) = false ->
  let data := Body_Reads_data e w (UpstreamBody u) ps in
  let w1 := set_index w k IN_PROGRESS in
  let g := CacheRespHandler re e w1 resp in
  let s := Body_Reads e g.1 (resp_Body g.2) ps in
  let c := Body_Close s.1 s.2 in
  CacheReqHandler (B:=B) re e sleeps w req = Some (w1, req, None) /\
  Body_Reads_data e g.1 (resp_Body g.2) ps = data /\
  c.2 = None /\
  index c.1.1 k = AVAILABLE /\
  file_at c.1.1 (cachedir w +:+ k) = Some data /\
  exists hit : Response B,
    CacheReqHandler re e2 sleeps2 c.1.1 req2 = Some (c.1.1, req2, Some hit) /\
    StatusCode hit = 200 /\
    ContentLength hit = Z.of_nat (length data) /\
    (forall (e' : Env) (size fuel : nat),
        (0 < size)%nat -> (length data < fuel)%nat ->
        Body_ReadAll fuel e' c.1.1 (resp_Body hit) size = Some data).
Proof.
  intros Hk Hk2 Hne Hidx Hs Hst Hreq Hbody Hcreate Hcalm Hopen Hstat data w1 g s c.
  split. { apply CacheReqHandler_miss; try done; by rewrite Hidx. }
  assert (g = (set_store w1 (Dir (<[k := []]> es)),
               {| StatusCode := StatusCode resp; Header := Header resp;
                  ContentLength := ContentLength resp;
                  resp_TransferEncoding := resp_TransferEncoding resp;
                  resp_Body :=
                    TeeBody {| shaname := k; fname := cachedir w +:+ k;
                               f := {| f_path := cachedir w +:+ k; f_off := 0;
                                       f_closed := false |};
                               body := UpstreamBody u; nbread := 0; nbwritten := 0 |};
                  resp_Request := resp_Request resp |})) as Hg.
  { unfold g, CacheRespHandler. rewrite bool_decide_false by (rewrite Hst; auto).
    rewrite Hreq, Hk, bool_decide_true by done.
    unfold w1. rewrite index_set_index_eq, bool_decide_false by done.
    destruct (newCacheTeeReader_cases e (set_index w k IN_PROGRESS) k (resp_Body resp))
      as [Hok _].
    rewrite (Hok es) by done. by rewrite Hbody. }
  set (tee0 := {| shaname := k; fname := cachedir w +:+ k;
                  f := {| f_path := cachedir w +:+ k; f_off := 0; f_closed := false |};
                  body := UpstreamBody u; nbread := 0; nbwritten := 0 |}) in Hg.
  assert (at_end g.1 tee0 []) as Hend.
  { rewrite Hg. unfold at_end, file_at. cbn [fst f f_closed f_path f_off tee0 store set_store].
    rewrite (entry_of_key' w) by done. rewrite decide_False by done.
    by rewrite lookup_insert_eq. }
  assert (resp_Body g.2 = TeeBody tee0) as Hgb by (by rewrite Hg).
  assert (s = Body_Reads e g.1 (TeeBody tee0) ps) as Hs_eq by (unfold s; by rewrite Hgb).
  destruct (tee_upstream_Reads e ps g.1 tee0 u eq_refl)
    as (Hdata & tee' & Hs2 & Hsha & _ & Hc & Hd & Hend').
  destruct (Hend' [] Hend Hcalm) as ((_ & Hfile & _) & Hpath & _).
  rewrite app_nil_l in Hfile.
  rewrite (upstream_data_any_world e e ps g.1 w u) in Hdata, Hfile. fold data in Hdata, Hfile.
  rewrite <- Hs_eq in Hs2, Hfile, Hc, Hd. rewrite <- Hgb in Hdata.
  split; [done|].
  assert (c = (set_index s.1 k AVAILABLE,
               TeeBody {| shaname := shaname tee'; fname := fname tee';
                          f := File_Close (f tee'); body := body tee';
                          nbread := nbread tee'; nbwritten := nbwritten tee' |}, None))
    as Hclose.
  { unfold c. rewrite Hs2. cbn. by rewrite Hsha. }
  assert (cachedir s.1 = cachedir w) as Hdir by (by rewrite Hd, Hg).
  assert (file_at c.1.1 (cachedir w +:+ k) = Some data) as Hfile'.
  { rewrite Hclose. by rewrite Hpath in Hfile. }
  rewrite Hclose in *. cbn [fst snd] in *.
  split; [done|]. split; [apply index_set_index_eq|]. split; [done|].
  eexists. split.
  { apply (CacheReqHandler_hit e2 sleeps2 _ req2 k data); try done.
    - apply index_set_index_eq.
    - cbn [cachedir set_index]. by rewrite Hdir.
    - cbn [cachedir set_index]. by rewrite Hdir.
    - cbn [cachedir set_index]. by rewrite Hdir. }
  cbn [StatusCode ContentLength resp_Body]. split; [done|]. split; [done|].
  intros e' size fuel Hsize Hfuel.
  rewrite (ReadAll_file fuel e' _ _ 0 size data); [done| |done|lia].
  cbn [cachedir set_index]. by rewrite Hdir.
Qed.

(** ** From one run of the proxy to the next *)

(** The startup scan over a directory that is there. *)
Lemma cacheInit_dir (e : Env) (w : World) (es : gmap string (list byte)) :
  store w = Dir es ->
  stat_fault e (with_slash (cachedir w)) = false ->
  readdir_fault e (with_slash (cachedir w)) = false ->
  cacheInit e w =
    Some {| cachedir := with_slash (cachedir w);
            cache := load_cache (merge_sort name_le (fst <$> map_to_list es)) ∅;
            store := Dir es |}.
Proof.
  intros Hs. unfold cacheInit, with_slash.
  destruct (HasSuffix_slash (cachedir w)); cbn [negb]; intros Hstat Hrd;
    unfold os_Stat, entry_of, ioutil_ReadDir; cbn [cachedir store];
    rewrite Hstat, Hs, strip_prefix_self; rewrite decide_True by done;
    cbn [IsDir negb cachedir store cache]; by rewrite Hrd, ?Hs.
Qed.

Lemma index_load_cache (d : string) (es : gmap string (list byte)) (k : string) :
  index {| cachedir := d;
           cache := load_cache (merge_sort name_le (fst <$> map_to_list es)) ∅;
           store := Dir es |} k
  = if decide (is_Some (es !! k)) then AVAILABLE else EMPTY.
Proof.
  unfold index. cbn [cache]. rewrite load_cache_lookup.
  destruct (decide (is_Some (es !! k))) as [Hin|Hout].
  - rewrite decide_True; [done|]. by apply ReadDir_names.
  - rewrite decide_False; [done|]. by rewrite ReadDir_names.
Qed.

(** X10. What the cache directory holds when the process starts decides
    what the first requests get.  After the startup scan, a request for a
    key that has a file in the directory is answered from that file, with
    its size and its bytes, whether or not the fetch that wrote the file
    ever finished; a request for a key that has none goes upstream and
    leaves the key [IN_PROGRESS]. *)
Theorem restart_serves_directory (e : Env) (d : string) (es : gmap string (list byte))
    (sleeps : list (World -> World)) (req : Request) (k : string) :
  shouldBeCached re (URL_Path req) = k ->
  k ≠ "" ->
  stat_fault e (with_slash d) = false ->
  readdir_fault e (with_slash d) = false ->
  exists w' : World,
    cacheInit e (process_start d (Dir es)) = Some w' /\
    cachedir w' = with_slash d /\ store w' = Dir es /\
    (forall content : list byte,
        es !! k = Some content ->
        open_fault e (with_slash d +:+ k) = false ->
        stat_fault e (with_slash d +:+ k) = false ->
        exists hit : Response B,
          CacheReqHandler re e sleeps w' req = Some (w', req, Some hit) /\
          StatusCode hit = 200 /\
          ContentLength hit = Z.of_nat (length content) /\
          (forall (e' : Env) (size fuel : nat),
              (0 < size)%nat -> (length content < fuel)%nat ->
              Body_ReadAll fuel e' w' (resp_Body hit) size = Some content)) /\
    (es !! k = None ->
     CacheReqHandler (B:=B) re e sleeps w' req
       = Some (set_index w' k IN_PROGRESS, req, None)).
Proof.
  intros Hk Hne Hstat Hrd. eexists. split.
  { by apply (cacheInit_dir e (process_start d (Dir es)) es). }
  cbn [process_start cachedir store]. split; [done|]. split; [done|]. split.
  - intros content Hc Hopen Hstat'.
    assert (file_at {| cachedir := with_slash d;
                       cache := load_cache (merge_sort name_le (fst <$> map_to_list es)) ∅;
                       store := Dir es |} (with_slash d +:+ k) = Some content) as Hfile.
    { unfold file_at, entry_of. cbn [store cachedir].
      by rewrite strip_prefix_app, decide_False. }
    eexists. split.
    { apply (CacheReqHandler_hit e sleeps _ req k content); try done.
      rewrite index_load_cache, decide_True; [done|by eexists]. }
    cbn [StatusCode ContentLength resp_Body cachedir]. split; [done|]. split; [done|].
    intros e' size fuel Hsize Hfuel.
    by rewrite (ReadAll_file fuel e' _ _ 0 size content) by (done || lia).
  - intros Hnone. apply CacheReqHandler_miss; try done;
      rewrite index_load_cache, decide_False; try done; by rewrite Hnone; intros [? ?].
Qed.

(** ** [cacheExistsFor] during a fetch *)

(** X12. The file of a key is on disk before the key is [AVAILABLE]: as
    soon as [CacheRespHandler] has attached the tee reader,
    [cacheExistsFor] answers [true] for the key, whose state in the index
    is what it was. *)
Theorem file_exists_before_available (e e' : Env) (w : World) (resp : Response B)
    (k : string) (es : gmap string (list byte)) :
  StatusCode resp = 200 ->
  shouldBeCached re (URL_Path (resp_Request resp)) = k ->
  k ≠ "" ->
  index w k ≠ AVAILABLE ->
  store w = Dir es ->
  create_fault e (cachedir w +:+ k) = false ->
  cacheExistsFor e' (CacheRespHandler re e w resp).1 k = true /\
  index (CacheRespHandler re e w resp).1 k = index w k /\
  index (CacheRespHandler re e w resp).1 k ≠ AVAILABLE.
Proof.
  intros Hst Hk Hne Hidx Hs Hc.
  assert ((CacheRespHandler re e w resp).1 = set_store w (Dir (<[k := []]> es))) as ->.
  { unfold CacheRespHandler. rewrite bool_decide_false by (rewrite Hst; auto).
    rewrite Hk, bool_decide_true by done. rewrite bool_decide_false by done.
    destruct (newCacheTeeReader_cases e w k (resp_Body resp)) as [Hok _].
    by rewrite (Hok es). }
  split; [|done].
  unfold cacheExistsFor, os_Stat_err. cbn [cachedir store set_store].
  rewrite (entry_of_key' w) by done.
  destruct (stat_fault e' _); [done|].
  by rewrite decide_False, lookup_insert_eq.
Qed.

End Handlers.

(** ** [cacheExistsFor] *)


(** * The pattern of the blob paths *)

Lemma has_slash_cons (c : ascii) (s : string) :
  has_slash (String c s) <-> c = "/"%char \/ has_slash s.
Proof.
  unfold has_slash. cbn [list_ascii_of_string]. rewrite elem_of_cons. naive_solver.
Qed.

Lemma span_name_app (name rest : string) :
  ~ has_slash name ->
  span_name (name +:+ String "/" rest) = (name, String "/" rest).
Proof.
  induction name as [|c name IH]; intros Hno.
  - reflexivity.
  - rewrite has_slash_cons in Hno.
    change (String c name +:+ String "/" rest) with (String c (name +:+ String "/" rest)).
    cbn [span_name].
    rewrite decide_False by tauto. rewrite IH by tauto. done.
Qed.



Lemma re_ascii_unfold (s : string) :
  re_ascii s = match re_match_here s with
               | Some res => Some res
               | None => match s with
                         | EmptyString => None
                         | String _ s' => re_ascii s'
                         end
               end.
Proof. by destruct s. Qed.


(** X13. A path that starts with the directory of the blobs, two
    characters, a slash, and a name without slash followed by a slash is
    cacheable, and its key is that name, whatever follows. *)
Theorem blob_path_gives_key (c1 c2 : ascii) (name rest : string) :
  is_ascii c1 -> is_ascii c2 ->
  c1 ≠ "010"%char -> c2 ≠ "010"%char ->
  name ≠ "" ->
  ~ has_slash name ->
  shouldBeCached re_ascii
    (re_prefix +:+ String c1 (String c2 (String "/" (name +:+ String "/" rest))))
  = name.
Proof.
  intros _ _ Hc1 Hc2 Hname Hno. unfold shouldBeCached.
  rewrite re_ascii_unfold. unfold re_match_here.
  rewrite strip_prefix_app. rewrite decide_True by done.
  rewrite span_name_app by done. rewrite decide_False by done. done.
Qed.


(** * The files of the cache directory *)

Section Files.

Context {B : Type} `{!ReadCloser B}.
Variable re : string -> option (list string).

Lemma files_kept_refl (w : World) : files_kept w w.
Proof. intros es Hs. by exists es. Qed.

Lemma files_kept_trans (w1 w2 w3 : World) :
  files_kept w1 w2 -> files_kept w2 w3 -> files_kept w1 w3.
Proof.
  intros H12 H23 es Hs. destruct (H12 es Hs) as (es2 & Hs2 & Hin2).
  destruct (H23 es2 Hs2) as (es3 & Hs3 & Hin3). exists es3. split; [done|]. auto.
Qed.

Lemma files_kept_same (w w' : World) : store w' = store w -> files_kept w w'.
Proof. intros Heq es Hs. exists es. by rewrite Heq. Qed.

Lemma files_kept_insert (w : World) (es : gmap string (list byte)) (name : string)
    (content : list byte) :
  store w = Dir es -> files_kept w (set_store w (Dir (<[name := content]> es))).
Proof.
  intros Hs es0 Hs0. rewrite Hs in Hs0. injection Hs0 as <-.
  eexists. split; [done|]. intros name' Hin.
  destruct (decide (name = name')) as [<-|Hne].
  - rewrite lookup_insert_eq. by eexists.
  - by rewrite lookup_insert_ne.
Qed.

Lemma os_Create_kept (e : Env) (w : World) (path : string) :
  files_kept w (os_Create e w path).1.
Proof.
  unfold os_Create. destruct (create_fault e path); [apply files_kept_refl|].
  destruct (store w) as [| |es] eqn:Hs; try apply files_kept_refl.
  destruct (entry_of w path); [|apply files_kept_refl].
  case_decide; [apply files_kept_refl|]. by apply files_kept_insert.
Qed.

Lemma File_Write_kept (e : Env) (w : World) (file : File) (data : list byte) :
  files_kept w (File_Write e w file data).1.1.1.
Proof.
  unfold File_Write. destruct (f_closed file); [apply files_kept_refl|].
  destruct (store w) as [| |es] eqn:Hs; try apply files_kept_refl.
  destruct (entry_of w (f_path file)); [|apply files_kept_refl].
  destruct (es !! _); [|apply files_kept_refl]. by apply files_kept_insert.
Qed.

Lemma Body_Read_kept (e : Env) (b : Body B) (w : World) (p : list byte) :
  files_kept w (Body_Read e w b p).1.1.1.1.
Proof.
  revert w p. induction b as [u|file|tee IH]; intros w p; cbn [Body_Read].
  - destruct (rc_Read u p) as [[[u' p'] n] err]. apply files_kept_refl.
  - destruct (File_Read w file p) as [[[file' p'] n] err]. apply files_kept_refl.
  - destruct IH as [sha fn fl bd IH nr nw]. unfold cacheTeeReader_Read.
    cbn [body f shaname fname nbread nbwritten].
    specialize (IH w p).
    destruct (Body_Read e w bd p) as [[[[w1 bd'] p'] nread] err].
    cbn [fst] in IH. case_bool_decide; [|done].
    pose proof (File_Write_kept e w1 fl (take (Z.to_nat nread) p')) as Hw.
    destruct (File_Write e w1 fl _) as [[[w2 f'] nbytes] err2].
    cbn [fst] in *. by eapply files_kept_trans.
Qed.

Lemma Body_Close_kept (w : World) (b : Body B) : files_kept w (Body_Close w b).1.1.
Proof.
  apply files_kept_same. destruct b as [u|file|tee]; cbn [Body_Close]; [|done..].
  by destruct (rc_Close u).
Qed.

Lemma CacheRespHandler_kept (e : Env) (w : World) (resp : Response B) :
  files_kept w (CacheRespHandler re e w resp).1.
Proof.
  unfold CacheRespHandler. repeat case_bool_decide; try apply files_kept_refl.
  unfold newCacheTeeReader. cbn [fname].
  pose proof (os_Create_kept e w
    (cachedir w +:+ shouldBeCached re (URL_Path (resp_Request resp)))) as Hc.
  by destruct (os_Create e w _) as [w' [file|]].
Qed.

Lemma CacheReqHandler_kept (e : Env) (sleeps : list (World -> World)) (w w' : World)
    (req req' : Request) (resp : option (Response B)) :
  Forall (fun others => forall w0, files_kept w0 (others w0)) sleeps ->
  CacheReqHandler re e sleeps w req = Some (w', req', resp) ->
  files_kept w w'.
Proof.
  intros Hall. unfold CacheReqHandler.
  case_bool_decide; [|intros [= <- _ _]; apply files_kept_refl].
  destruct (wait_for_download sleeps w _) as [[in_cache w1]|] eqn:Hwait; [|done].
  assert (files_kept w w1) as Hk.
  { clear -Hall Hwait. revert w Hwait.
    induction Hall as [|others sleeps Ho _ IH]; intros w; simpl;
      case_bool_decide; try done; try (intros [= _ <-]; apply files_kept_refl).
    intros Hw. eapply files_kept_trans; [apply Ho|by apply IH]. }
  case_bool_decide.
  - destruct (os_Open e w1 _); [destruct (os_Stat e w1 _)|]; intros [= <- _ _]; done.
  - intros [= <- _ _]. eapply files_kept_trans; [done|]. by apply files_kept_same.
Qed.

Lemma run_actions_kept (acts : list (Action B)) (w : World) :
  files_kept w (run_actions re acts w).
Proof.
  unfold run_actions. revert w. induction acts as [|a acts IH]; intros w; simpl.
  - apply files_kept_refl.
  - eapply files_kept_trans; [|apply IH].
    destruct a as [e req|e resp|e b p|b]; cbn [run_action].
    + destruct (CacheReqHandler re e [] w req) as [[[w' req'] resp]|] eqn:Hreq;
        [|apply files_kept_refl].
      eapply CacheReqHandler_kept; [|done]. constructor.
    + apply CacheRespHandler_kept.
    + apply Body_Read_kept.
    + apply Body_Close_kept.
Qed.

Lemma cacheInit_kept (e : Env) (w w' : World) :
  cacheInit e w = Some w' -> files_kept w w'.
Proof.
  intros Hinit es Hs. exists es. split; [|done]. revert Hinit.
  unfold cacheInit, os_Stat, os_Mkdir, ioutil_ReadDir, entry_of.
  destruct (negb (HasSuffix_slash (cachedir w))); cbn [cachedir store];
    rewrite Hs, strip_prefix_self; rewrite decide_True by done;
    destruct (stat_fault e _); try done; cbn [IsDir negb cachedir store];
    destruct (readdir_fault e _); try done; rewrite ?Hs; by intros [= <-].
Qed.

(** X15. No operation of the cache removes a file, or the cache
    directory: after the startup scan, a request handler with whatever
    the other goroutines do during its sleeps, a response handler, a read
    or a close of a body, every file that was in the directory is still
    there.  What a file holds may change. *)
Theorem no_file_is_removed (w w' : World) (es : gmap string (list byte)) (name : string) :
  transition (B:=B) re w w' ->
  store w = Dir es ->
  is_Some (es !! name) ->
  exists es' : gmap string (list byte), store w' = Dir es' /\ is_Some (es' !! name).
Proof.
  intros Ht Hs Hin.
  assert (files_kept w w') as Hk.
  { destruct Ht as [e d s w' Hinit|e sleeps w req w' req' resp Hreq|e w resp|e w b p|w b].
    - by apply (cacheInit_kept e).
    - eapply CacheReqHandler_kept; [|done].
      apply Forall_fmap, Forall_forall. intros acts _ w0. apply run_actions_kept.
    - apply CacheRespHandler_kept.
    - apply Body_Read_kept.
    - apply Body_Close_kept. }
  destruct (Hk es Hs) as (es' & Hs' & Hin'). exists es'. auto.
Qed.

End Files.

(** * Runs of the further properties *)

Lemma new_tee_creates_empty_file_witness :
  let r := newCacheTeeReader calm w_fetching "abc123" (UpstreamBody [Byte.x69]) in
  r.2 = Some (mkTee "abc123" "/tmp/proxy/abc123"
                (mkFile "/tmp/proxy/abc123" 0 false) (UpstreamBody [Byte.x69]) 0 0) /\
  file_at r.1 (cachedir w_fetching +:+ "abc123") = Some [] /\
  cache r.1 = cache w_fetching.
Proof.
  intros r.
  assert (r.2 = Some (mkTee "abc123" "/tmp/proxy/abc123"
                        (mkFile "/tmp/proxy/abc123" 0 false) (UpstreamBody [Byte.x69]) 0 0))
    as H1 by reflexivity.
  split; [exact H1|].
  destruct (new_tee_creates_empty_file calm w_fetching "abc123"
              (UpstreamBody (B:=list byte) [Byte.x69])) as (_ & _ & Hok).
  destruct (Hok _ H1) as (_ & Hfile & _ & Hcache & _).
  split; [exact Hfile|exact Hcache].
Defined.

Lemma response_gate_attaches_tee_witness :
  StatusCode (blob_resp 200) = 200 /\
  shouldBeCached re_ascii (URL_Path (resp_Request (blob_resp 200))) = "abc123" /\
  "abc123" ≠ "" /\
  index w_fetching "abc123" ≠ AVAILABLE /\
  store w_fetching = Dir {[ "abc123" := [Byte.x68] ]} /\
  create_fault calm (cachedir w_fetching +:+ "abc123") = false /\
  file_at (CacheRespHandler re_ascii calm w_fetching (blob_resp 200)).1
          (cachedir w_fetching +:+ "abc123") = Some [] /\
  cache (CacheRespHandler re_ascii calm w_fetching (blob_resp 200)).1 = cache w_fetching.
Proof.
  assert (StatusCode (blob_resp 200) = 200) as H1 by reflexivity.
  assert (shouldBeCached re_ascii (URL_Path (resp_Request (blob_resp 200))) = "abc123")
    as H2 by reflexivity.
  assert ("abc123" ≠ "") as H3 by discriminate.
  assert (index w_fetching "abc123" ≠ AVAILABLE) as H4 by discriminate.
  assert (store w_fetching = Dir {[ "abc123" := [Byte.x68] ]}) as H5 by reflexivity.
  assert (create_fault calm (cachedir w_fetching +:+ "abc123") = false) as H6
    by reflexivity.
  repeat (split; [assumption|]).
  exact (proj2 (response_gate_attaches_tee re_ascii calm w_fetching (blob_resp 200)
                  "abc123" _ H1 H2 H3 H4 H5 H6)).
Defined.

Lemma response_gate_frame_witness :
  "other" ≠ shouldBeCached re_ascii (URL_Path (resp_Request (blob_resp 200))) /\
  cache (CacheRespHandler re_ascii calm w_fetching (blob_resp 200)).1 = cache w_fetching /\
  file_at (CacheRespHandler re_ascii calm w_fetching (blob_resp 200)).1
          (cachedir w_fetching +:+ "other")
  = file_at w_fetching (cachedir w_fetching +:+ "other").
Proof.
  assert ("other" ≠ shouldBeCached re_ascii (URL_Path (resp_Request (blob_resp 200))))
    as H1 by discriminate.
  split; [exact H1|].
  destruct (response_gate_frame re_ascii calm w_fetching (blob_resp 200))
    as (Hc & _ & Hf & _).
  split; [exact Hc|exact (Hf "other" H1)].
Defined.

Lemma request_gate_outcomes_witness :
  shouldBeCached re_ascii (URL_Path blob_req) = "abc123" /\
  "abc123" ≠ "" /\
  CacheReqHandler (B:=list byte) re_ascii calm [] w_unknown blob_req
    = Some (set_index w_unknown "abc123" IN_PROGRESS, blob_req, None) /\
  (index (set_index w_unknown "abc123" IN_PROGRESS) "abc123" = IN_PROGRESS /\
   (exists w1 : World,
       set_index w_unknown "abc123" IN_PROGRESS = set_index w1 "abc123" IN_PROGRESS /\
       index w1 "abc123" ≠ IN_PROGRESS /\ index w1 "abc123" ≠ AVAILABLE) \/
   index (set_index w_unknown "abc123" IN_PROGRESS) "abc123" = AVAILABLE /\
   (os_Open calm (set_index w_unknown "abc123" IN_PROGRESS)
      (cachedir (set_index w_unknown "abc123" IN_PROGRESS) +:+ "abc123") = None \/
    os_Stat calm (set_index w_unknown "abc123" IN_PROGRESS)
      (cachedir (set_index w_unknown "abc123" IN_PROGRESS) +:+ "abc123") = None)).
Proof.
  assert (shouldBeCached re_ascii (URL_Path blob_req) = "abc123") as H1 by reflexivity.
  assert ("abc123" ≠ "") as H2 by discriminate.
  assert (CacheReqHandler (B:=list byte) re_ascii calm [] w_unknown blob_req
          = Some (set_index w_unknown "abc123" IN_PROGRESS, blob_req, None)) as H3
    by reflexivity.
  repeat (split; [assumption|]).
  exact (proj2 (request_gate_outcomes re_ascii calm [] w_unknown _ blob_req _ None
                  "abc123" H1 H2 H3)).
Defined.

(** Nothing else runs during the two sleeps of the request. *)
Lemma request_gate_waits_witness :
  shouldBeCached re_ascii (URL_Path blob_req) = "abc123" /\
  "abc123" ≠ "" /\
  index w_fetching "abc123" = IN_PROGRESS /\
  CacheReqHandler (B:=list byte) re_ascii calm [id; id] w_fetching blob_req = None.
Proof.
  assert (shouldBeCached re_ascii (URL_Path blob_req) = "abc123") as H1 by reflexivity.
  assert ("abc123" ≠ "") as H2 by discriminate.
  assert (index w_fetching "abc123" = IN_PROGRESS) as H3 by reflexivity.
  assert (Forall (fun others : World -> World =>
                    forall w0, index w0 "abc123" = IN_PROGRESS ->
                               index (others w0) "abc123" = IN_PROGRESS) [id; id]) as H4
    by (repeat constructor; intros w0 Hw0; exact Hw0).
  repeat (split; [assumption|]).
  exact (request_gate_waits (B:=list byte) re_ascii calm [id; id] w_fetching blob_req
           "abc123" H1 H2 H3 H4).
Defined.


Lemma tee_delivers_upstream_bytes_witness :
  let tee := blob_tee (UpstreamBody [Byte.x69; Byte.x6a; Byte.x6b]) in
  let ps := [replicate 2 Byte.x00; replicate 2 Byte.x00] in
  body tee = UpstreamBody [Byte.x69; Byte.x6a; Byte.x6b] /\
  Body_Reads_data short_writes w_fetching (TeeBody tee) ps
  = Body_Reads_data calm w_unknown (UpstreamBody [Byte.x69; Byte.x6a; Byte.x6b]) ps /\
  Body_Reads_data calm w_unknown (UpstreamBody [Byte.x69; Byte.x6a; Byte.x6b]) ps
  = [Byte.x69; Byte.x6a; Byte.x6b].
Proof.
  intros tee ps.
  assert (body tee = UpstreamBody [Byte.x69; Byte.x6a; Byte.x6b]) as H1 by reflexivity.
  split; [exact H1|]. split; [|reflexivity].
  exact (tee_delivers_upstream_bytes short_writes calm w_fetching w_unknown tee _ ps H1).
Defined.

Lemma tee_persists_stream_witness :
  let tee := blob_tee (UpstreamBody [Byte.x69; Byte.x6a; Byte.x6b]) in
  let ps := [replicate 2 Byte.x00; replicate 2 Byte.x00] in
  body tee = UpstreamBody [Byte.x69; Byte.x6a; Byte.x6b] /\
  at_end w_fetching tee [Byte.x68] /\
  (forall file d, write_fault calm file d = None) /\
  file_at (Body_Reads calm w_fetching (TeeBody tee) ps).1 (f_path (f tee))
  = Some ([Byte.x68] ++ Body_Reads_data calm w_fetching (TeeBody tee) ps) /\
  Body_Reads_data calm w_fetching (TeeBody tee) ps = [Byte.x69; Byte.x6a; Byte.x6b].
Proof.
  intros tee ps.
  assert (body tee = UpstreamBody [Byte.x69; Byte.x6a; Byte.x6b]) as H1 by reflexivity.
  assert (at_end w_fetching tee [Byte.x68]) as H2 by (repeat split).
  assert (forall file d, write_fault calm file d = None) as H3 by reflexivity.
  repeat (split; [assumption|]).
  split; [|reflexivity].
  exact (proj1 (tee_persists_stream calm w_fetching tee _ ps [Byte.x68] H1 H2 H3)).
Defined.

(** The blob [hi] is fetched into an empty cache, in two reads and the read
    that meets [io.EOF], and then served from its file. *)
Lemma fetch_then_hit_witness :
  let ps := [replicate 1 Byte.x00; replicate 4 Byte.x00; replicate 4 Byte.x00] in
  let data := Body_Reads_data calm w_unknown (UpstreamBody [Byte.x68; Byte.x69]) ps in
  let w1 := set_index w_unknown "abc123" IN_PROGRESS in
  let g := CacheRespHandler re_ascii calm w1 (blob_resp 200) in
  let s := Body_Reads calm g.1 (resp_Body g.2) ps in
  let c := Body_Close s.1 s.2 in
  shouldBeCached re_ascii (URL_Path blob_req) = "abc123" /\
  "abc123" ≠ "" /\
  index w_unknown "abc123" = EMPTY /\
  store w_unknown = Dir ∅ /\
  StatusCode (blob_resp 200) = 200 /\
  resp_Request (blob_resp 200) = blob_req /\
  resp_Body (blob_resp 200) = UpstreamBody [Byte.x68; Byte.x69] /\
  create_fault calm (cachedir w_unknown +:+ "abc123") = false /\
  (forall file d, write_fault calm file d = None) /\
  open_fault calm (cachedir w_unknown +:+ "abc123") = false /\
  stat_fault calm (cachedir w_unknown +:+ "abc123") = false /\
  data = [Byte.x68; Byte.x69] /\
  index c.1.1 "abc123" = AVAILABLE /\
  file_at c.1.1 (cachedir w_unknown +:+ "abc123") = Some data /\
  exists hit : Response (list byte),
    CacheReqHandler re_ascii calm [] c.1.1 blob_req = Some (c.1.1, blob_req, Some hit) /\
    ContentLength hit = 2.
Proof.
  intros ps data w1 g s c.
  assert (shouldBeCached re_ascii (URL_Path blob_req) = "abc123") as H1 by reflexivity.
  assert ("abc123" ≠ "") as H2 by discriminate.
  assert (index w_unknown "abc123" = EMPTY) as H3 by reflexivity.
  assert (store w_unknown = Dir ∅) as H4 by reflexivity.
  assert (StatusCode (blob_resp 200) = 200) as H5 by reflexivity.
  assert (resp_Request (blob_resp 200) = blob_req) as H6 by reflexivity.
  assert (resp_Body (blob_resp 200) = UpstreamBody [Byte.x68; Byte.x69]) as H7
    by reflexivity.
  assert (create_fault calm (cachedir w_unknown +:+ "abc123") = false) as H8
    by reflexivity.
  assert (forall file d, write_fault calm file d = None) as H9 by reflexivity.
  assert (open_fault calm (cachedir w_unknown +:+ "abc123") = false) as H10
    by reflexivity.
  assert (stat_fault calm (cachedir w_unknown +:+ "abc123") = false) as H11
    by reflexivity.
  assert (data = [Byte.x68; Byte.x69]) as H12 by reflexivity.
  repeat (split; [assumption|]).
  destruct (fetch_then_hit re_ascii calm calm [] [] w_unknown blob_req blob_req
              (blob_resp 200) [Byte.x68; Byte.x69] ps "abc123" ∅
              H1 H1 H2 H3 H4 H5 H6 H7 H8 H9 H10 H11)
    as (_ & _ & _ & Hidx & Hfile & hit & Hhit & _ & Hlen & _).
  split; [exact Hidx|]. split; [exact Hfile|].
  exists hit. split; [exact Hhit|exact Hlen].
Defined.

Lemma restart_serves_directory_witness :
  let es : gmap string (list byte) := {[ "abc123" := [Byte.x68; Byte.x69] ]} in
  shouldBeCached re_ascii (URL_Path blob_req) = "abc123" /\
  "abc123" ≠ "" /\
  stat_fault calm (with_slash "/tmp/proxy") = false /\
  readdir_fault calm (with_slash "/tmp/proxy") = false /\
  es !! "abc123" = Some [Byte.x68; Byte.x69] /\
  exists (w' : World) (hit : Response (list byte)),
    cacheInit calm (process_start "/tmp/proxy" (Dir es)) = Some w' /\
    CacheReqHandler re_ascii calm [] w' blob_req = Some (w', blob_req, Some hit) /\
    ContentLength hit = 2.
Proof.
  intros es.
  assert (shouldBeCached re_ascii (URL_Path blob_req) = "abc123") as H1 by reflexivity.
  assert ("abc123" ≠ "") as H2 by discriminate.
  assert (stat_fault calm (with_slash "/tmp/proxy") = false) as H3 by reflexivity.
  assert (readdir_fault calm (with_slash "/tmp/proxy") = false) as H4 by reflexivity.
  assert (es !! "abc123" = Some [Byte.x68; Byte.x69]) as H5 by reflexivity.
  repeat (split; [assumption|]).
  destruct (restart_serves_directory (B:=list byte) re_ascii calm "/tmp/proxy" es []
              blob_req "abc123" H1 H2 H3 H4) as (w' & Hinit & _ & _ & Hhit & _).
  destruct (Hhit _ H5 eq_refl eq_refl) as (hit & Hreq & _ & Hlen & _).
  exists w', hit. split; [exact Hinit|]. split; [exact Hreq|exact Hlen].
Defined.


Lemma file_exists_before_available_witness :
  StatusCode (blob_resp 200) = 200 /\
  shouldBeCached re_ascii (URL_Path (resp_Request (blob_resp 200))) = "abc123" /\
  "abc123" ≠ "" /\
  index w_fetching "abc123" ≠ AVAILABLE /\
  store w_fetching = Dir {[ "abc123" := [Byte.x68] ]} /\
  create_fault calm (cachedir w_fetching +:+ "abc123") = false /\
  cacheExistsFor calm (CacheRespHandler re_ascii calm w_fetching (blob_resp 200)).1
    "abc123" = true /\
  index (CacheRespHandler re_ascii calm w_fetching (blob_resp 200)).1 "abc123"
  = index w_fetching "abc123" /\
  index (CacheRespHandler re_ascii calm w_fetching (blob_resp 200)).1 "abc123"
  ≠ AVAILABLE.
Proof.
  assert (StatusCode (blob_resp 200) = 200) as H1 by reflexivity.
  assert (shouldBeCached re_ascii (URL_Path (resp_Request (blob_resp 200))) = "abc123")
    as H2 by reflexivity.
  assert ("abc123" ≠ "") as H3 by discriminate.
  assert (index w_fetching "abc123" ≠ AVAILABLE) as H4 by discriminate.
  assert (store w_fetching = Dir {[ "abc123" := [Byte.x68] ]}) as H5 by reflexivity.
  assert (create_fault calm (cachedir w_fetching +:+ "abc123") = false) as H6
    by reflexivity.
  repeat (split; [assumption|]).
  exact (file_exists_before_available re_ascii calm calm w_fetching (blob_resp 200)
           "abc123" _ H1 H2 H3 H4 H5 H6).
Defined.

Lemma blob_path_gives_key_witness :
  is_ascii "a" /\ is_ascii "b" /\
  "a"%char ≠ "010"%char /\ "b"%char ≠ "010"%char /\
  "abc123" ≠ "" /\
  ~ has_slash "abc123" /\
  shouldBeCached re_ascii
    (re_prefix +:+ String "a" (String "b" (String "/" ("abc123" +:+ String "/" "data"))))
  = "abc123".
Proof.
  assert (is_ascii "a") as H1 by (apply Nat.ltb_lt; reflexivity).
  assert (is_ascii "b") as H2 by (apply Nat.ltb_lt; reflexivity).
  assert ("a"%char ≠ "010"%char) as H3 by discriminate.
  assert ("b"%char ≠ "010"%char) as H4 by discriminate.
  assert ("abc123" ≠ "") as H5 by discriminate.
  assert (~ has_slash "abc123") as H6.
  { unfold has_slash. cbn. intros Hin.
    repeat (apply elem_of_cons in Hin as [Hin|Hin]; [discriminate Hin|]).
    by apply elem_of_nil in Hin. }
  repeat (split; [assumption|]).
  exact (blob_path_gives_key "a" "b" "abc123" "data" H1 H2 H3 H4 H5 H6).
Defined.


Lemma no_file_is_removed_witness :
  transition (B:=list byte) re_ascii w_fetching
    (CacheRespHandler re_ascii calm w_fetching (blob_resp 200)).1 /\
  store w_fetching = Dir {[ "abc123" := [Byte.x68] ]} /\
  is_Some (({[ "abc123" := [Byte.x68] ]} : gmap string (list byte)) !! "abc123") /\
  exists es' : gmap string (list byte),
    store (CacheRespHandler re_ascii calm w_fetching (blob_resp 200)).1 = Dir es' /\
    is_Some (es' !! "abc123").
Proof.
  assert (transition (B:=list byte) re_ascii w_fetching
            (CacheRespHandler re_ascii calm w_fetching (blob_resp 200)).1) as H1
    by apply response_gate.
  assert (store w_fetching = Dir {[ "abc123" := [Byte.x68] ]}) as H2 by reflexivity.
  assert (is_Some (({[ "abc123" := [Byte.x68] ]} : gmap string (list byte)) !! "abc123"))
    as H3 by (eexists; reflexivity).
  repeat (split; [assumption|]).
  exact (no_file_is_removed (B:=list byte) re_ascii w_fetching _ _ "abc123" H1 H2 H3).
Defined.

(** * The scan from its result, and the file under faults *)

Lemma HasSuffix_slash_app (d : string) : HasSuffix_slash (d +:+ "/") = true.
Proof.
  induction d as [|a d IH]; [done|].
  change (String a d +:+ "/") with (String a (d +:+ "/")).
  cbn [HasSuffix_slash]. rewrite IH. by destruct d.
Qed.

Lemma HasSuffix_with_slash (d : string) : HasSuffix_slash (with_slash d) = true.
Proof.
  unfold with_slash. destruct (HasSuffix_slash d) eqn:Hd; [done|].
  apply HasSuffix_slash_app.
Qed.

(** The world a successful scan returns. *)
Lemma cacheInit_result (e : Env) (w w' : World) :
  cacheInit e w = Some w' ->
  exists es : gmap string (list byte),
    w' = {| cachedir := with_slash (cachedir w);
            cache := load_cache (merge_sort name_le (fst <$> map_to_list es)) ∅;
            store := Dir es |} /\
    (store w = Dir es \/ store w = Absent /\ es = ∅).
Proof.
  unfold cacheInit, with_slash, os_Stat, os_Mkdir, ioutil_ReadDir, entry_of.
  destruct (HasSuffix_slash (cachedir w)); cbn [negb cachedir store];
    destruct (store w) as [| |es] eqn:Hs;
    rewrite ?strip_prefix_self; rewrite ?decide_True by done;
    destruct (stat_fault e _); try done; cbn [IsDir negb cachedir store];
    try destruct (mkdir_fault e _); try done; cbn [cachedir store set_store cache];
    destruct (readdir_fault e _); try done; rewrite ?Hs;
    intros [= <-]; eexists; (split; [reflexivity|]); auto.
Qed.

(** X16. Whenever the startup scan returns, [cachedir] is the value it had
    with a slash at its end if there was none, the cache directory is
    there, and the index agrees with it: its keys are the names of the
    entries of the directory, and every one of them is [AVAILABLE]; no key
    is [IN_PROGRESS]. *)
Theorem scan_result_agrees_with_directory (e : Env) (w w' : World) :
  cacheInit e w = Some w' ->
  cachedir w' = with_slash (cachedir w) /\
  HasSuffix_slash (cachedir w') = true /\
  exists es : gmap string (list byte),
    store w' = Dir es /\
    (forall k : string, is_Some (cache w' !! k) <-> is_Some (es !! k)) /\
    (forall k : string,
        index w' k = if decide (is_Some (es !! k)) then AVAILABLE else EMPTY) /\
    (forall k : string, index w' k ≠ IN_PROGRESS).
Proof.
  intros Hinit. apply cacheInit_result in Hinit as (es & -> & _).
  cbn [cachedir store cache]. split; [done|]. split; [apply HasSuffix_with_slash|].
  exists es. split; [done|].
  assert (forall k : string,
    load_cache (merge_sort name_le (fst <$> map_to_list es)) ∅ !! k
    = if decide (is_Some (es !! k)) then Some AVAILABLE else None) as Hlook.
  { intros k. rewrite load_cache_lookup.
    destruct (decide (is_Some (es !! k))) as [Hin|Hout].
    - rewrite decide_True; [done|]. by apply ReadDir_names.
    - rewrite decide_False; [done|]. by rewrite ReadDir_names. }
  split; [|split].
  - intros k. rewrite Hlook. case_decide as Hk; [split; [done|by eexists]|].
    split; [by intros [? ?]|done].
  - intros k. unfold index. cbn [cache]. rewrite Hlook. by case_decide.
  - intros k. unfold index. cbn [cache]. rewrite Hlook. by case_decide.
Qed.

Section Faults.

Context {B : Type} `{!ReadCloser B}.

(** X17. Whatever the writes do, a tee reader around a body of the
    transport that is the writer of its file stays at the end of it: after
    any number of reads the file holds what it held, followed by bytes no
    more numerous than the bytes delivered, and [nbwritten], when it was
    the size of the file, still is (modulo 2^64). *)
Theorem tee_file_only_grows (e : Env) (ps : list (list byte)) (w : World)
    (tee : cacheTeeReader (Body B)) (u : B) (content : list byte) :
  body tee = UpstreamBody u ->
  at_end w tee content ->
  let s := Body_Reads e w (TeeBody tee) ps in
  exists (tee' : cacheTeeReader (Body B)) (stored : list byte),
    s.2 = TeeBody tee' /\
    at_end s.1 tee' (content ++ stored) /\
    file_at s.1 (f_path (f tee)) = Some (content ++ stored) /\
    (length stored <= length (Body_Reads_data e w (TeeBody tee) ps))%nat /\
    (nbwritten tee = wrap64 (Z.of_nat (length content)) ->
     nbwritten tee' = wrap64 (Z.of_nat (length (content ++ stored)))).
Proof.
  revert w tee u content. induction ps as [|p ps IH]; intros w tee u content Hbody Hend.
  - exists tee, []. cbn. rewrite app_nil_r. repeat split; try apply Hend; auto.
  - cbn zeta. cbn [Body_Reads Body_Reads_data].
    destruct (tee_upstream_Read e w tee u p Hbody)
      as (w1 & tee1 & Hread & Hbody1 & _ & _ & _ & _ & Hend1).
    destruct (Hend1 content Hend) as (Hat1 & Hpath1 & Hnw1).
    rewrite Hread.
    set (data1 := take (Z.to_nat (rc_Read u p).1.2) (rc_Read u p).1.1.2) in *.
    set (stored1 := take (written e (f tee) data1) data1) in *.
    destruct (IH w1 tee1 _ (content ++ stored1) Hbody1 Hat1)
      as (tee2 & stored2 & Hs2 & Hat2 & Hfile2 & Hlen2 & Hnw2).
    exists tee2, (stored1 ++ stored2). rewrite app_assoc.
    split; [done|]. split; [done|]. split; [by rewrite <- Hpath1|].
    split; [|auto].
    rewrite !length_app. unfold stored1. rewrite length_take.
    fold data1. lia.
Qed.

End Faults.

Lemma scan_result_agrees_with_directory_witness :
  let w := process_start "/tmp/proxy" (Dir {[ "abc123" := [Byte.x68; Byte.x69] ]}) in
  let w' := {| cachedir := "/tmp/proxy/"; cache := {[ "abc123" := AVAILABLE ]};
               store := Dir {[ "abc123" := [Byte.x68; Byte.x69] ]} |} in
  cacheInit calm w = Some w' /\
  cachedir w' = with_slash (cachedir w) /\
  HasSuffix_slash (cachedir w') = true /\
  index w' "abc123" ≠ IN_PROGRESS.
Proof.
  intros w w'.
  assert (cacheInit calm w = Some w') as H1 by (vm_compute; reflexivity).
  split; [exact H1|].
  destruct (scan_result_agrees_with_directory calm w w' H1)
    as (Hd & Hslash & es & _ & _ & _ & Hnp).
  split; [exact Hd|]. split; [exact Hslash|exact (Hnp "abc123")].
Defined.

Lemma tee_file_only_grows_witness :
  let tee := blob_tee (UpstreamBody [Byte.x69; Byte.x6a; Byte.x6b]) in
  let ps := [replicate 4 Byte.x00] in
  body tee = UpstreamBody [Byte.x69; Byte.x6a; Byte.x6b] /\
  at_end w_fetching tee [Byte.x68] /\
  Body_Reads_data short_writes w_fetching (TeeBody tee) ps
  = [Byte.x69; Byte.x6a; Byte.x6b] /\
  file_at (Body_Reads short_writes w_fetching (TeeBody tee) ps).1 (f_path (f tee))
  = Some [Byte.x68; Byte.x69] /\
  exists stored : list byte,
    file_at (Body_Reads short_writes w_fetching (TeeBody tee) ps).1 (f_path (f tee))
    = Some ([Byte.x68] ++ stored) /\
    (length stored <= length (Body_Reads_data short_writes w_fetching (TeeBody tee) ps))%nat.
Proof.
  intros tee ps.
  assert (body tee = UpstreamBody [Byte.x69; Byte.x6a; Byte.x6b]) as H1 by reflexivity.
  assert (at_end w_fetching tee [Byte.x68]) as H2 by (repeat split).
  split; [exact H1|]. split; [exact H2|]. split; [reflexivity|]. split; [reflexivity|].
  destruct (tee_file_only_grows short_writes ps w_fetching tee _ [Byte.x68] H1 H2)
    as (tee' & stored & _ & _ & Hfile & Hlen & _).
  exists stored. split; [exact Hfile|exact Hlen].
Defined.
